(** * MCP Portal: tool synthesis, server registry and the AI Sandbox turn

    A shallow embedding of the parts of the repository that the
    specification talks about.

    - The React pages are embedded from their TypeScript sources: the AI
      Sandbox page ([handleSendMessage], [totalToolCount]), the endpoint
      configuration page ([handleSave]), the endpoint card (placeholder
      of the tool name, description warning) and the parameter card
      (mandatory toggle).  A handler is a function from the component state and the
      state of the backend to the new state, the new backend state and
      the list of HTTP exchanges it performed; [await] sequences the
      exchanges, a rejected promise is the [inl] of a sum.
    - Embedded in the same way, further down: the file drop zone and the
      import dialog, the search boxes over the deployed servers, the
      handlers of the Deployment page, the handlers of the endpoint card,
      the local state and the filter of the configuration page, and the
      query keys of the specification hooks.
    - The backend (FastAPI) is not part of the sources.  The tool
      compiler, the server registry, the toolset composer and the request
      synthesizer are modelled from the specification; each such
      definition says so in its comment.

    Strings: a JavaScript string is a sequence of code units; here it is
    Rocq's [string], whose characters are the code units below 256.
    [trim], [toLowerCase] and the regular expression of the endpoint card
    are exact on that range. *)

From Stdlib Require Import ZArith Bool Ascii String List Lia.
From stdpp Require Import gmap strings list fin_maps.

Set Warnings "-register-all,-clear-no-such-hyp".
Local Open Scope string_scope.
Local Open Scope list_scope.

(** ** JavaScript values *)

(** [any]: the JSON values the pages pass around without looking inside. *)
Inductive Json : Type :=
| JNull
| JBool (b : bool)
| JNum (n : Z)
| JStr (s : string)
| JArr (xs : list Json)
| JObj (fields : list (string * Json)).

(** Truthiness of a string: only the empty string is falsy. *)
Definition truthy (s : string) : bool := negb (String.eqb s "").

(** Truthiness of [string | null]. *)
Definition truthy_opt (s : option string) : bool :=
  match s with
  | None => false
  | Some s => truthy s
  end.

(** [a || b] on strings. *)
Definition or_else (a b : string) : string := if truthy a then a else b.

(** [a || undefined] on strings. *)
Definition or_undefined (a : string) : option string :=
  if truthy a then Some a else None.

(** White space and line terminators of ECMAScript among the code units
    below 256: TAB, LF, VT, FF, CR, SP and NBSP. *)
Definition isWhiteSpace (c : ascii) : bool :=
  let n := nat_of_ascii c in
  ((9 <=? n) && (n <=? 13) || (n =? 32) || (n =? 160))%nat.

Fixpoint trimStart (s : string) : string :=
  match s with
  | EmptyString => EmptyString
  | String c r => if isWhiteSpace c then trimStart r else s
  end.

Fixpoint trimEnd (s : string) : string :=
  match s with
  | EmptyString => EmptyString
  | String c r =>
      match trimEnd r with
      | EmptyString => if isWhiteSpace c then EmptyString else String c EmptyString
      | r' => String c r'
      end
  end.

(** [String.prototype.trim]. *)
Definition trim (s : string) : string := trimEnd (trimStart s).

(** Every code unit of [s] is white space (the empty string included). *)
Fixpoint whitespaceOnly (s : string) : bool :=
  match s with
  | EmptyString => true
  | String c r => isWhiteSpace c && whitespaceOnly r
  end.

(** [String.prototype.toLowerCase] on code units below 256: A-Z and the
    Latin-1 capitals U+00C0..U+00DE (U+00D7, the multiplication sign,
    excepted) move up by 32. *)
Definition toLowerCaseUnit (c : ascii) : ascii :=
  let n := nat_of_ascii c in
  if ((65 <=? n) && (n <=? 90))%nat then ascii_of_nat (n + 32)
  else if ((192 <=? n) && (n <=? 222) && negb (n =? 215))%nat
       then ascii_of_nat (n + 32)
  else c.

Fixpoint mapString (f : ascii -> ascii) (s : string) : string :=
  match s with
  | EmptyString => EmptyString
  | String c r => String (f c) (mapString f r)
  end.

Fixpoint allString (p : ascii -> bool) (s : string) : bool :=
  match s with
  | EmptyString => true
  | String c r => p c && allString p r
  end.

Definition toLowerCase (s : string) : string := mapString toLowerCaseUnit s.

Definition isDigit (c : ascii) : bool :=
  let n := nat_of_ascii c in ((48 <=? n) && (n <=? 57))%nat.

Definition isUpper (c : ascii) : bool :=
  let n := nat_of_ascii c in ((65 <=? n) && (n <=? 90))%nat.

Definition isLower (c : ascii) : bool :=
  let n := nat_of_ascii c in ((97 <=? n) && (n <=? 122))%nat.

Definition isLetter (c : ascii) : bool := isUpper c || isLower c.

(** The class [a-z0-9] under the flag [i] (no flag [u]): a code unit at
    or above 128 never canonicalizes to an ASCII one, so the class is the
    ASCII letters and digits. *)
Definition isAlnum (c : ascii) : bool := isLetter c || isDigit c.

(** ** The AI Sandbox page (AITestingPage) and its hooks *)

Inductive Role : Type := user | assistant.

Inductive Provider : Type := anthropic | openai.

Record Usage : Type := mkUsage {
  input_tokens : Z;
  output_tokens : Z
}.

(** [interface ToolCall] of the hooks file. *)
Record ToolCall : Type := mkToolCall {
  tc_id : string;
  tc_name : string;
  tc_input : Json
}.

(** [interface Message] of the page; an absent optional field is [None]. *)
Record Message : Type := mkMessage {
  role : Role;
  content : string;
  toolCalls : option (list ToolCall);
  toolResults : option (list Json);
  usage : option Usage
}.

(** The body the page posts to [/test]. *)
Module TestMessageRequest.
Record t : Type := mk {
  message : string;
  conversation_history : list Json;
  provider : Provider;
  model : string;
  api_key : option string;
  base_url : option string;
  server_ids : list string;
  authorization : option string
}.
End TestMessageRequest.

Module TestMessageResponse.
Record t : Type := mk {
  response : string;
  tool_calls : list ToolCall;
  conversation_history : list Json;
  stop_reason : string;
  usage : Usage;
  requires_tool_execution : bool
}.
End TestMessageResponse.

(** The body the page posts to [/execute-tool]. *)
Module ToolExecutionRequest.
Record t : Type := mk {
  tool_call : ToolCall;
  conversation_history : list Json;
  provider : Provider;
  model : string;
  api_key : option string;
  base_url : option string;
  server_ids : list string;
  authorization : option string
}.
End ToolExecutionRequest.

Module ToolExecutionResponse.
Record t : Type := mk {
  response : string;
  tool_execution_result : Json;
  additional_tool_calls : list ToolCall;
  conversation_history : list Json;
  stop_reason : string;
  usage : Usage
}.
End ToolExecutionResponse.

(** What a rejected request carries, as far as the [catch] block reads
    it: [error?.response?.data?.detail] and [error.message]. *)
Record ApiError : Type := mkApiError {
  detail : option string;
  error_message : option string
}.

(** The state of the page that [handleSendMessage] reads or writes. *)
Record PageState : Type := mkPageState {
  selectedServerIds : list string;
  messages : list Message;
  inputMessage : string;
  conversationHistory : list Json;
  provider : Provider;
  anthropicModel : string;
  anthropicApiKey : string;
  openaiModel : string;
  openaiApiKey : string;
  openaiBaseUrl : string;
  authorization : string
}.

(** [setMessages(prev => [...prev, m])]. *)
Definition pushMessage (m : Message) (st : PageState) : PageState :=
  mkPageState (selectedServerIds st) (messages st ++ [m]) (inputMessage st)
    (conversationHistory st) (provider st) (anthropicModel st)
    (anthropicApiKey st) (openaiModel st) (openaiApiKey st)
    (openaiBaseUrl st) (authorization st).

Definition setInputMessage (s : string) (st : PageState) : PageState :=
  mkPageState (selectedServerIds st) (messages st) s
    (conversationHistory st) (provider st) (anthropicModel st)
    (anthropicApiKey st) (openaiModel st) (openaiApiKey st)
    (openaiBaseUrl st) (authorization st).

Definition setConversationHistory (h : list Json) (st : PageState) : PageState :=
  mkPageState (selectedServerIds st) (messages st) (inputMessage st)
    h (provider st) (anthropicModel st)
    (anthropicApiKey st) (openaiModel st) (openaiApiKey st)
    (openaiBaseUrl st) (authorization st).

(** [selectedServerIds[0] || ''] *)
Definition primaryServerId (st : PageState) : string :=
  match selectedServerIds st with
  | [] => ""
  | sid :: _ => or_else sid ""
  end.

Definition requestModel (st : PageState) : string :=
  match provider st with
  | openai => openaiModel st
  | anthropic => anthropicModel st
  end.

Definition requestApiKey (st : PageState) : option string :=
  match provider st with
  | openai => or_undefined (openaiApiKey st)
  | anthropic => or_undefined (anthropicApiKey st)
  end.

Definition requestBaseUrl (st : PageState) : option string :=
  match provider st with
  | openai => Some (openaiBaseUrl st)
  | anthropic => None
  end.

Definition testRequest (st : PageState) : TestMessageRequest.t :=
  TestMessageRequest.mk (inputMessage st) (conversationHistory st)
    (provider st) (requestModel st) (requestApiKey st) (requestBaseUrl st)
    (selectedServerIds st) (or_undefined (authorization st)).

(** The request of one tool call; [hist] is [result.conversation_history]
    of the first answer, for every call of the loop. *)
Definition executeRequest (st : PageState) (hist : list Json) (c : ToolCall)
  : ToolExecutionRequest.t :=
  ToolExecutionRequest.mk c hist
    (provider st) (requestModel st) (requestApiKey st) (requestBaseUrl st)
    (selectedServerIds st) (or_undefined (authorization st)).

Definition userMessage (st : PageState) : Message :=
  mkMessage user (inputMessage st) None None None.

Definition assistantMessage (result : TestMessageResponse.t) : Message :=
  mkMessage assistant
    (or_else (TestMessageResponse.response result) "(Tool calls in progress...)")
    (Some (TestMessageResponse.tool_calls result))
    None
    (Some (TestMessageResponse.usage result)).

Definition finalMessage (toolResult : ToolExecutionResponse.t) : Message :=
  mkMessage assistant
    (ToolExecutionResponse.response toolResult)
    None
    (Some [ToolExecutionResponse.tool_execution_result toolResult])
    (Some (ToolExecutionResponse.usage toolResult)).

Definition errorText (e : ApiError) : string :=
  let d := match detail e with Some d => d | None => "" end in
  let m := match error_message e with Some m => m | None => "" end in
  or_else d (or_else m "Failed to communicate with AI").

Definition errorMessage (e : ApiError) : Message :=
  mkMessage assistant ("Error: " +:+ errorText e) None None None.

(** One HTTP exchange of the page with the backend: the server id in the
    URL, the body, and what came back. *)
Inductive Exchange : Type :=
| TestExchange (serverId : string) (req : TestMessageRequest.t)
    (res : ApiError + TestMessageResponse.t)
| ExecuteExchange (serverId : string) (req : ToolExecutionRequest.t)
    (res : ApiError + ToolExecutionResponse.t).

Section AITestingPage.

(** The backend behind [api.post]: any state, any answers. *)
Context {Backend : Type}.
Variable postTest :
  Backend -> string -> TestMessageRequest.t ->
  Backend * (ApiError + TestMessageResponse.t).
Variable postExecuteTool :
  Backend -> string -> ToolExecutionRequest.t ->
  Backend * (ApiError + ToolExecutionResponse.t).

(** The [for (const toolCall of result.tool_calls)] loop.  [st0] is the
    state the handler closed over (it builds the requests), [st] the
    state the setters have reached.  The fourth component is the error
    thrown out of the loop, if any. *)
Fixpoint executeTools (st0 : PageState) (hist : list Json)
    (calls : list ToolCall) (b : Backend) (st : PageState)
  : Backend * PageState * list Exchange * option ApiError :=
  match calls with
  | [] => (b, st, [], None)
  | toolCall :: rest =>
      let sid := primaryServerId st0 in
      let req := executeRequest st0 hist toolCall in
      match postExecuteTool b sid req with
      | (b1, inl err) => (b1, st, [ExecuteExchange sid req (inl err)], Some err)
      | (b1, inr toolResult) =>
          let st1 :=
            pushMessage (finalMessage toolResult)
              (setConversationHistory
                 (ToolExecutionResponse.conversation_history toolResult) st) in
          match executeTools st0 hist rest b1 st1 with
          | (b2, st2, log, thrown) =>
              (b2, st2, ExecuteExchange sid req (inr toolResult) :: log, thrown)
          end
      end
  end.

(** [handleSendMessage] of the AI Sandbox page. *)
Definition handleSendMessage (b : Backend) (st : PageState)
  : Backend * PageState * list Exchange :=
  if negb (truthy (trim (inputMessage st)))
     || (length (selectedServerIds st) =? 0)%nat
  then (b, st, [])
  else
    let st1 := setInputMessage "" (pushMessage (userMessage st) st) in
    let sid := primaryServerId st in
    let req := testRequest st in
    match postTest b sid req with
    | (b1, inl err) =>
        (b1, pushMessage (errorMessage err) st1, [TestExchange sid req (inl err)])
    | (b1, inr result) =>
        let st2 :=
          pushMessage (assistantMessage result)
            (setConversationHistory
               (TestMessageResponse.conversation_history result) st1) in
        let first := TestExchange sid req (inr result) in
        if TestMessageResponse.requires_tool_execution result
           && (0 <? length (TestMessageResponse.tool_calls result))%nat
        then
          match executeTools st (TestMessageResponse.conversation_history result)
                  (TestMessageResponse.tool_calls result) b1 st2 with
          | (b2, st3, log, None) => (b2, st3, first :: log)
          | (b2, st3, log, Some err) =>
              (b2, pushMessage (errorMessage err) st3, first :: log)
          end
        else (b1, st2, [first])
    end.

End AITestingPage.

(** [handleToggleServer]: a click adds the id at the end or removes it. *)
Definition handleToggleServer (serverId : string) (prev : list string)
  : list string :=
  if bool_decide (serverId ∈ prev)
  then filter (fun i => i ≠ serverId) prev
  else prev ++ [serverId].

(** A deployed server as the page reads it ([any] in the source): the
    fields it touches.  [selected_endpoints_count] is the JavaScript
    value the response holds there, of a type [Value] left open, or is
    missing. *)
Record ServerInfo (Value : Type) : Type := mkServerInfo {
  si_id : string;
  server_name : string;
  project_name : string;
  selected_endpoints_count : option Value
}.

Arguments mkServerInfo {Value} _ _ _ _.
Arguments si_id {Value} _.
Arguments server_name {Value} _.
Arguments project_name {Value} _.
Arguments selected_endpoints_count {Value} _.

(** [allServers.filter((s) => selectedServerIds.includes(s.id))] *)
Definition selectedServers {Value : Type} (allServers : list (ServerInfo Value))
    (selectedIds : list string) : list (ServerInfo Value) :=
  filter (fun s => si_id s ∈ selectedIds) allServers.

Section TotalToolCount.

(** JavaScript's [+], its number [0] and its truthiness on the values of
    the field.  The page adds with [+] (floating-point addition when the
    counts are numbers); nothing here assumes how [+] adds. *)
Context {Value : Type}.
Variable plus : Value -> Value -> Value.
Variable zero : Value.
Variable truthyValue : Value -> bool.

(** [server.selected_endpoints_count || 0] *)
Definition countOrZero (s : ServerInfo Value) : Value :=
  match selected_endpoints_count s with
  | Some n => if truthyValue n then n else zero
  | None => zero
  end.

(** [totalToolCount]: the [reduce] over the selected servers. *)
Definition totalToolCount (allServers : list (ServerInfo Value))
    (selectedIds : list string) : Value :=
  fold_left (fun sum server => plus sum (countOrZero server))
    (selectedServers allServers selectedIds) zero.

End TotalToolCount.

(** ** Endpoint configuration: types, endpoint card, parameter card *)

Inductive Location : Type := in_path | in_query | in_header | in_cookie.

Module ParameterConfigItem.
Record t : Type := mk {
  name : string;
  type : string;
  location : Location;
  description : string;
  required : bool;        (* original from the OpenAPI document *)
  user_required : bool;   (* the user's choice *)
  deprecated : bool;
  schema : Json
}.
End ParameterConfigItem.

(** [EndpointConfigWithDetails] *)
Module EndpointConfig.
Record t : Type := mk {
  id : string;
  swagger_spec_id : string;
  http_method : string;
  path : string;
  operation_id : option string;
  is_selected : bool;
  mcp_tool_name : option string;
  mcp_description : option string;
  parameter_configurations : option (list ParameterConfigItem.t);
  request_schema : option Json;
  response_schema : option Json;
  summary : string;
  description : string;
  tags : list string;
  deprecated : bool
}.
End EndpointConfig.

Module EndpointConfigBatchUpdate.
Record t : Type := mk {
  endpoint_id : string;
  is_selected : bool;
  mcp_tool_name : option string;
  mcp_description : option string;
  parameter_configurations : option (list ParameterConfigItem.t)
}.
End EndpointConfigBatchUpdate.

(** The parameter card's checkbox:
    [onChange({ ...parameter, user_required: checked })]. *)
Definition setUserRequired (checked : bool) (p : ParameterConfigItem.t)
  : ParameterConfigItem.t :=
  ParameterConfigItem.mk (ParameterConfigItem.name p) (ParameterConfigItem.type p)
    (ParameterConfigItem.location p) (ParameterConfigItem.description p)
    (ParameterConfigItem.required p) checked
    (ParameterConfigItem.deprecated p) (ParameterConfigItem.schema p).

(** The note under the checkbox. *)
Definition mandatoryNote (p : ParameterConfigItem.t) : string :=
  if ParameterConfigItem.user_required p
  then "This parameter will be required in the generated MCP tool"
  else "This parameter will be optional in the generated MCP tool".

(** [path.replace(/[^a-z0-9]/gi, '_')] *)
Definition replaceNonAlnum (s : string) : string :=
  mapString (fun c => if isAlnum c then c else "_"%char) s.

(** The name the endpoint card announces when no tool name is given (the
    placeholder of the tool-name input). *)
Definition defaultToolName (e : EndpointConfig.t) : string :=
  toLowerCase (EndpointConfig.http_method e) +:+ "_"
    +:+ replaceNonAlnum (EndpointConfig.path e).

(** What the tool-name input shows: [value={mcp_tool_name || ''}], and
    the placeholder when the value is empty. *)
Definition shownToolName (e : EndpointConfig.t) : string :=
  if truthy_opt (EndpointConfig.mcp_tool_name e)
  then default "" (EndpointConfig.mcp_tool_name e)
  else defaultToolName e.

(** Modelled from the spec: the default tool name of section 4.1 (the
    Tool Compiler is not in the sources), [<method>_<sanitized path>],
    non-alphanumeric replaced by [_], the result lower-cased.  The
    endpoint card's placeholder, [defaultToolName], is another text. *)
Definition specDefaultToolName (e : EndpointConfig.t) : string :=
  toLowerCase
    (EndpointConfig.http_method e +:+ "_"
       +:+ replaceNonAlnum (EndpointConfig.path e)).

(** The identifier grammar [[a-zA-Z_][a-zA-Z0-9_]*]. *)
Definition isIdentStart (c : ascii) : bool :=
  isLetter c || Ascii.eqb c "_"%char.

Definition isIdentChar (c : ascii) : bool :=
  isAlnum c || Ascii.eqb c "_"%char.

Definition isIdentifier (s : string) : bool :=
  match s with
  | EmptyString => false
  | String c r => isIdentStart c && allString isIdentChar r
  end.

(** The endpoint card's warning:
    [endpoint.is_selected && !endpoint.mcp_description]. *)
Definition descriptionMissing (e : EndpointConfig.t) : bool :=
  EndpointConfig.is_selected e && negb (truthy_opt (EndpointConfig.mcp_description e)).

(** ** The endpoint configuration page: [handleSave] *)

Fixpoint join (sep : string) (l : list string) : string :=
  match l with
  | [] => ""
  | [x] => x
  | x :: rest => x +:+ sep +:+ join sep rest
  end.

Definition toBatchUpdate (config : EndpointConfig.t) : EndpointConfigBatchUpdate.t :=
  EndpointConfigBatchUpdate.mk
    (EndpointConfig.id config)
    (EndpointConfig.is_selected config)
    (EndpointConfig.mcp_tool_name config)
    (EndpointConfig.mcp_description config)
    (EndpointConfig.parameter_configurations config).

(** What [handleSave] does to the outside, in order. *)
Inductive SaveEffect : Type :=
| Alert (text : string)
| PostBatchUpdate (specId : string) (updates : list EndpointConfigBatchUpdate.t)
| ConsoleError (e : ApiError).

Definition missingDescriptionAlert (l : list EndpointConfig.t) : string :=
  "Please provide descriptions for all selected endpoints:" +:+ String "010" (String "010" "")
    +:+ join ", "
          (map (fun c => EndpointConfig.http_method c +:+ " " +:+ EndpointConfig.path c) l).

Section EndpointSelectionPage.

Context {Backend : Type}.
Variable postBatchUpdate :
  Backend -> list EndpointConfigBatchUpdate.t ->
  Backend * (ApiError + list EndpointConfigBatchUpdate.t).

(** [handleSave]: the result is the backend, the new [hasChanges] and the
    effects.  [specId] comes from the route and may be absent. *)
Definition handleSave (b : Backend) (specId : option string)
    (localConfigs : list EndpointConfig.t) (hasChanges : bool)
  : Backend * bool * list SaveEffect :=
  if negb (truthy_opt specId) then (b, hasChanges, [])
  else
    let selectedWithoutDesc := List.filter descriptionMissing localConfigs in
    if (0 <? length selectedWithoutDesc)%nat
    then (b, hasChanges, [Alert (missingDescriptionAlert selectedWithoutDesc)])
    else
      let updates := map toBatchUpdate localConfigs in
      let sid := default "" specId in
      match postBatchUpdate b updates with
      | (b1, inr _) => (b1, false, [PostBatchUpdate sid updates])
      | (b1, inl err) =>
          (b1, hasChanges,
           [PostBatchUpdate sid updates; ConsoleError err;
            Alert (or_else (default "" (detail err))
                     "Failed to save configurations. Please try again.")])
      end.

End EndpointSelectionPage.

(** ** The core behind the API

    Tool compiler, server registry, toolset composer and request
    synthesizer.  Their code is not in the sources; the definitions
    follow sections 3, 4 and 7 of the specification.  The data they
    start from are the endpoint configurations above: [is_selected] is
    the specification's [selected], [mcp_tool_name] its [toolName],
    [mcp_description] its [toolDescription], [required] its
    [declaredRequired] and [user_required] its [userRequired]. *)

(** Modelled from the spec: the error taxonomy of section 7, as far as
    the operations below raise it. *)
Inductive CoreError : Type :=
| ConfigurationError
| UnknownServerError
| UnknownToolError
| ServerInactiveError
| MissingRequiredParameterError (parameter : string)
| UpstreamUnavailableError
| UpstreamStatusError (statusCode : Z) (body : Json).

(** Modelled from the spec: one entry of a tool's input contract,
    [{type, required, description}]. *)
Record ContractEntry : Type := mkContractEntry {
  ce_type : string;
  ce_required : bool;
  ce_description : string
}.

(** Modelled from the spec: [ToolDefinition].  The input contract keeps
    one entry per parameter, in the order of the descriptor, keyed by the
    parameter's name. *)
Record ToolDefinition : Type := mkToolDefinition {
  td_name : string;
  td_description : string;
  inputContract : list (string * ContractEntry)
}.

(** [parameter_configurations], empty when it is [null]. *)
Definition parameters (e : EndpointConfig.t) : list ParameterConfigItem.t :=
  default [] (EndpointConfig.parameter_configurations e).

(** Modelled from the spec: the contract entry of one parameter (part of
    the Tool Compiler, which is not in the sources): its type, its
    [user_required] as [required], its description. *)
Definition contractEntry (p : ParameterConfigItem.t) : string * ContractEntry :=
  (ParameterConfigItem.name p,
   mkContractEntry (ParameterConfigItem.type p)
     (ParameterConfigItem.user_required p)
     (ParameterConfigItem.description p)).

(** Modelled from the spec: "a parameter lacks a description" (the check
    of the Tool Compiler, which is not in the sources). *)
Definition lacksDescription (p : ParameterConfigItem.t) : bool :=
  negb (truthy (ParameterConfigItem.description p)).

(** Modelled from the spec: the Tool Compiler of section 4.1,
    [compile(EndpointDescriptor) -> ToolDefinition | Error].  It fails
    with [ConfigurationError] when the descriptor is selected and has no
    tool description, or when a parameter has no description; the name is
    the given tool name or, when none is set, the default name of section
    4.1, [<method>_<sanitized path>] lower-cased ([specDefaultToolName]);
    every parameter's [required] is its [user_required].  Telling apart
    defaults that collide needs the other descriptors and is not part of
    [compile(EndpointDescriptor)]. *)
Definition compile (e : EndpointConfig.t) : CoreError + ToolDefinition :=
  if descriptionMissing e then inl ConfigurationError
  else if existsb lacksDescription (parameters e) then inl ConfigurationError
  else
    inr (mkToolDefinition
           (if truthy_opt (EndpointConfig.mcp_tool_name e)
            then default "" (EndpointConfig.mcp_tool_name e)
            else specDefaultToolName e)
           (default "" (EndpointConfig.mcp_description e))
           (map contractEntry (parameters e))).

(** Modelled from the spec: [DeployedServer] of section 3. *)
Record DeployedServer : Type := mkDeployedServer {
  ds_id : string;
  baseUrl : string;
  tools : list ToolDefinition;
  active : bool
}.

(** Modelled from the spec: the two mutable fields of a deployed server
    (the registry's code is not in the sources). *)
Definition withBaseUrl (url : string) (s : DeployedServer) : DeployedServer :=
  mkDeployedServer (ds_id s) url (tools s) (active s).

(** Modelled from the spec: see [withBaseUrl]. *)
Definition withActive (a : bool) (s : DeployedServer) : DeployedServer :=
  mkDeployedServer (ds_id s) (baseUrl s) (tools s) a.

(** Modelled from the spec: the Server Registry of section 4.2 (backend
    code, not in the sources), a map from server id to deployed server;
    [register]. *)
Definition register (s : DeployedServer) (reg : gmap string DeployedServer)
  : gmap string DeployedServer := <[ds_id s := s]> reg.

(** Modelled from the spec: [setActive] of the Server Registry. *)
Definition setActive (id : string) (a : bool) (reg : gmap string DeployedServer)
  : gmap string DeployedServer := alter (withActive a) id reg.

(** Modelled from the spec: [updateBaseUrl] of the Server Registry: only
    the stored base URL of that server changes. *)
Definition updateBaseUrl (id url : string) (reg : gmap string DeployedServer)
  : gmap string DeployedServer := alter (withBaseUrl url) id reg.

(** Modelled from the spec: [get] of the Server Registry. *)
Definition get (id : string) (reg : gmap string DeployedServer)
  : option DeployedServer := reg !! id.

(** Modelled from the spec: [remove] of the Server Registry. *)
Definition remove (id : string) (reg : gmap string DeployedServer)
  : gmap string DeployedServer := delete id reg.

(** Modelled from the spec: the short identifier of a server,
    [serverId[:8]]. *)
Definition shortId (serverId : string) : string := substring 0 8 serverId.

(** Modelled from the spec: a tool under another name (the composer's
    code is not in the sources); description and contract stay. *)
Definition renamed (n : string) (t : ToolDefinition) : ToolDefinition :=
  mkToolDefinition n (td_description t) (inputContract t).

(** Modelled from the spec: what the composer (not in the sources)
    appends to a name that is already present, [_<serverId[:8]>]. *)
Definition nameSuffix (serverId : string) : string := "_" +:+ shortId serverId.

(** Modelled from the spec: [name] with [suffix] appended [k] times. *)
Fixpoint appended (k : nat) (suffix name : string) : string :=
  match k with
  | 0 => name
  | S k' => appended k' suffix (name +:+ suffix)
  end.

(** Modelled from the spec: the renaming rule of section 4.3, "if its
    name is already present in the composed set, the tool is renamed by
    appending the owning server's short identifier", applied as long as
    its condition holds: the specification keeps both tools under
    distinct names and drops no collision, so a name that is still
    present after the identifier was appended is renamed again.
    [rounds] bounds the number of applications. *)
Fixpoint freeName (rounds : nat) (acc : gmap string (string * ToolDefinition))
    (suffix name : string) : string :=
  match rounds with
  | 0 => name
  | S rounds' =>
      if bool_decide (is_Some (acc !! name))
      then freeName rounds' acc suffix (name +:+ suffix)
      else name
  end.

(** Modelled from the spec: the name under which the composer stores a
    tool: its own when that is not present in the composed set, else the
    first of its names with the identifier appended that is not present.
    As many rounds as the set has names are enough to reach one
    ([composedName_free]). *)
Definition composedName (acc : gmap string (string * ToolDefinition))
    (serverId : string) (t : ToolDefinition) : string :=
  freeName (size acc) acc (nameSuffix serverId) (td_name t).

(** Modelled from the spec: the composer's step for one tool: the tool
    goes into the mapping under its composed name, a name not yet
    present, with the id of its server. *)
Definition placeTool (serverId : string)
    (acc : gmap string (string * ToolDefinition)) (t : ToolDefinition)
  : gmap string (string * ToolDefinition) :=
  let n := composedName acc serverId t in
  <[n := (serverId, renamed n t)]> acc.

(** Modelled from the spec: the composer's step for one server, its
    tools in their order. *)
Definition placeServer (acc : gmap string (string * ToolDefinition))
    (s : DeployedServer) : gmap string (string * ToolDefinition) :=
  foldl (placeTool (ds_id s)) acc (tools s).

(** Modelled from the spec: the Toolset Composer of section 4.3 on the
    servers themselves: servers in the given order, the tools of each in
    their order; the composed toolset is the specification's mapping from
    tool name to (server id, tool definition). *)
Definition composeServers (servers : list DeployedServer)
  : gmap string (string * ToolDefinition) :=
  foldl placeServer ∅ servers.

(** Modelled from the spec: the ids given to the composer resolved
    against the registry (UnknownServerError for an id that is not
    registered, ServerInactiveError for an inactive server); the first id
    that fails, in the given order, decides the error. *)
Fixpoint resolveServers (reg : gmap string DeployedServer) (ids : list string)
  : CoreError + list DeployedServer :=
  match ids with
  | [] => inr []
  | id :: rest =>
      match reg !! id with
      | None => inl UnknownServerError
      | Some s =>
          if active s then
            match resolveServers reg rest with
            | inl e => inl e
            | inr l => inr (s :: l)
            end
          else inl ServerInactiveError
      end
  end.

(** Modelled from the spec: [compose(serverIds) -> ComposedToolset | Error]. *)
Definition compose (reg : gmap string DeployedServer) (ids : list string)
  : CoreError + gmap string (string * ToolDefinition) :=
  match resolveServers reg ids with
  | inl e => inl e
  | inr servers => inr (composeServers servers)
  end.

(** Modelled from the spec: the names the composer hands out, one per
    tool, in the order in which the tools are placed (a reading of
    [composeServers]; the composer is not in the sources). *)
Fixpoint namesOfTools (serverId : string)
    (acc : gmap string (string * ToolDefinition)) (ts : list ToolDefinition)
  : list string :=
  match ts with
  | [] => []
  | t :: rest =>
      composedName acc serverId t
        :: namesOfTools serverId (placeTool serverId acc t) rest
  end.

(** Modelled from the spec: see [namesOfTools]; over the servers. *)
Fixpoint namesFrom (acc : gmap string (string * ToolDefinition))
    (servers : list DeployedServer) : list string :=
  match servers with
  | [] => []
  | s :: rest =>
      namesOfTools (ds_id s) acc (tools s) ++ namesFrom (placeServer acc s) rest
  end.

(** Modelled from the spec: the names handed out by a composition that
    starts from the empty toolset. *)
Definition composedNames (servers : list DeployedServer) : list string :=
  namesFrom ∅ servers.

(** Modelled from the spec: a server's tool count. *)
Definition toolCount (s : DeployedServer) : nat := length (tools s).

(** Modelled from the spec: [sum(serverToolCounts)]. *)
Definition sumToolCounts (servers : list DeployedServer) : nat :=
  sum_list (map toolCount servers).

(** Modelled from the spec: what step 3 of the Request Synthesizer
    produces from a tool and its arguments. *)
Record ResolvedCall : Type := mkResolvedCall {
  rc_method : string;
  rc_path : string;
  rc_query : list (string * string);
  rc_headers : list (string * string);
  rc_body : option Json
}.

(** Modelled from the spec: the HTTP request of step 4, the URL and the
    resolved call. *)
Record HttpRequest : Type := mkHttpRequest {
  url : string;
  call : ResolvedCall
}.

(** Modelled from the spec: what step 4 gets back: a network failure
    (timeouts included) or a response. *)
Inductive HttpOutcome : Type :=
| NetworkFailure
| HttpResponse (statusCode : Z) (body : Json).

(** Modelled from the spec: one step of a session over a composed
    toolset: a call of [execute], or one of the registry's hot updates. *)
Inductive Op : Type :=
| OpExecute (toolName : string) (arguments : Json)
| OpUpdateBaseUrl (id url : string)
| OpSetActive (id : string) (a : bool).

Section RequestSynthesizer.

(** The network, and step 3 of section 4.5 (argument resolution), both
    left open. *)
Context {World : Type}.
Variable send : World -> HttpRequest -> World * HttpOutcome.
Variable synthesize : ToolDefinition -> Json -> CoreError + ResolvedCall.

(** Modelled from the spec: [execute] of section 4.5.  Step 1 resolves the
    tool, step 2 the server as it is registered at call time, step 3 the
    arguments, step 4 sends to [baseUrl + resolvedPath], step 5 returns a
    2xx body unchanged.  A server that is no longer registered gives
    UnknownServerError (the specification names no error for it).  The
    last component lists the requests sent. *)
Definition execute (reg : gmap string DeployedServer)
    (toolset : gmap string (string * ToolDefinition))
    (w : World) (toolName : string) (arguments : Json)
  : World * (CoreError + Z * Json) * list HttpRequest :=
  match toolset !! toolName with
  | None => (w, inl UnknownToolError, [])
  | Some (serverId, tool) =>
      match reg !! serverId with
      | None => (w, inl UnknownServerError, [])
      | Some server =>
          if active server then
            match synthesize tool arguments with
            | inl e => (w, inl e, [])
            | inr rc =>
                let req := mkHttpRequest (baseUrl server +:+ rc_path rc) rc in
                match send w req with
                | (w1, NetworkFailure) => (w1, inl UpstreamUnavailableError, [req])
                | (w1, HttpResponse status body) =>
                    if ((200 <=? status) && (status <? 300))%Z
                    then (w1, inr (status, body), [req])
                    else (w1, inl (UpstreamStatusError status body), [req])
                end
            end
          else (w, inl ServerInactiveError, [])
      end
  end.

(** Modelled from the spec: a session.  The toolset is composed once,
    the registry changes under it; every [OpExecute] contributes its
    result and the requests it sent. *)
Fixpoint runSession (toolset : gmap string (string * ToolDefinition))
    (reg : gmap string DeployedServer) (w : World) (ops : list Op)
  : gmap string DeployedServer * World
    * list ((CoreError + Z * Json) * list HttpRequest) :=
  match ops with
  | [] => (reg, w, [])
  | OpExecute toolName arguments :: rest =>
      match execute reg toolset w toolName arguments with
      | (w1, res, sent) =>
          match runSession toolset reg w1 rest with
          | (reg2, w2, out) => (reg2, w2, (res, sent) :: out)
          end
      end
  | OpUpdateBaseUrl id u :: rest => runSession toolset (updateBaseUrl id u reg) w rest
  | OpSetActive id a :: rest => runSession toolset (setActive id a reg) w rest
  end.

End RequestSynthesizer.

(** ** Reading a run of [handleSendMessage] off its exchanges *)

Definition isExecuteExchange (x : Exchange) : bool :=
  match x with
  | ExecuteExchange _ _ _ => true
  | TestExchange _ _ _ => false
  end.

(** The exchange was answered (the promise resolved). *)
Definition succeeded (x : Exchange) : bool :=
  match x with
  | TestExchange _ _ (inr _) | ExecuteExchange _ _ (inr _) => true
  | _ => false
  end.

(** The error of a rejected exchange. *)
Definition rejection (x : Exchange) : option ApiError :=
  match x with
  | TestExchange _ _ (inl e) | ExecuteExchange _ _ (inl e) => Some e
  | _ => None
  end.

(** The tool-result message an answered execute exchange leaves on the page. *)
Definition toolResultMessage (x : Exchange) : option Message :=
  match x with
  | ExecuteExchange _ _ (inr toolResult) => Some (finalMessage toolResult)
  | _ => None
  end.

(** [x] is the execute request of invocation [c], as the handler that
    closed over [st] builds it after an answer with history [hist]. *)
Definition exchangeFor (st : PageState) (hist : list Json) (c : ToolCall)
    (x : Exchange) : Prop :=
  exists res,
    x = ExecuteExchange (primaryServerId st) (executeRequest st hist c) res.

(** Invocation [c] (found by its id) was sent for execution in [log]. *)
Definition dispatched (log : list Exchange) (c : ToolCall) : bool :=
  existsb
    (fun x =>
       match x with
       | ExecuteExchange _ req _ =>
           String.eqb (tc_id (ToolExecutionRequest.tool_call req)) (tc_id c)
       | TestExchange _ _ _ => false
       end)
    log.

(** Invocation [c] is listed among the tool calls of a displayed message. *)
Definition surfaced (msgs : list Message) (c : ToolCall) : bool :=
  existsb
    (fun m =>
       match toolCalls m with
       | Some l => existsb (fun c' => String.eqb (tc_id c') (tc_id c)) l
       | None => false
       end)
    msgs.

(** The invocations the model is still waiting for when the run stops:
    those of the last answer received, unless they were then executed. *)
Definition pendingAtEnd (log : list Exchange) : list ToolCall :=
  match last log with
  | Some (ExecuteExchange _ _ (inr r)) => ToolExecutionResponse.additional_tool_calls r
  | Some (TestExchange _ _ (inr r)) => TestMessageResponse.tool_calls r
  | _ => []
  end.

(** "Every invocation gets a result", read in the most lenient way: for
    every invocation of the answer an execute request went out. *)
Definition everyInvocationDispatched (calls : list ToolCall)
    (log : list Exchange) : bool :=
  forallb (dispatched log) calls.

(** An execution answer with its [additional_tool_calls] emptied, and a
    backend whose execution answers are emptied in that way. *)
Definition withoutAdditional (r : ToolExecutionResponse.t) : ToolExecutionResponse.t :=
  ToolExecutionResponse.mk
    (ToolExecutionResponse.response r)
    (ToolExecutionResponse.tool_execution_result r)
    []
    (ToolExecutionResponse.conversation_history r)
    (ToolExecutionResponse.stop_reason r)
    (ToolExecutionResponse.usage r).

Definition forgetAdditional {Backend : Type}
    (postExecuteTool :
       Backend -> string -> ToolExecutionRequest.t ->
       Backend * (ApiError + ToolExecutionResponse.t))
  : Backend -> string -> ToolExecutionRequest.t ->
    Backend * (ApiError + ToolExecutionResponse.t) :=
  fun b sid req =>
    match postExecuteTool b sid req with
    | (b1, inr r) => (b1, inr (withoutAdditional r))
    | (b1, inl e) => (b1, inl e)
    end.

(** ** Sample data *)

Definition sampleState : PageState :=
  mkPageState ["srv-1"] [] "list the users" [] anthropic
    "claude-3-haiku-20240307" "" "gpt-4o" "" "https://api.openai.com/v1" "".

Definition blankState : PageState :=
  mkPageState ["srv-1"] [] "   " [] anthropic
    "claude-3-haiku-20240307" "" "gpt-4o" "" "https://api.openai.com/v1" "".

Definition call1 : ToolCall := mkToolCall "call_1" "list_users" (JObj []).
Definition call2 : ToolCall := mkToolCall "call_2" "get_user" (JObj [("user_id", JNum 1)]).

Definition sampleUsage : Usage := mkUsage 10 5.

(** A provider answer that asks for [calls]. *)
Definition answerWithCalls (calls : list ToolCall) : TestMessageResponse.t :=
  TestMessageResponse.mk "" calls [JStr "turn-1"] "tool_use" sampleUsage true.

(** An execution answer that comes with further invocations [more]. *)
Definition executionAnswer (more : list ToolCall) : ToolExecutionResponse.t :=
  ToolExecutionResponse.mk "Here are the users." (JArr []) more
    [JStr "turn-2"] (if bool_decide (more = []) then "end_turn" else "tool_use")
    sampleUsage.

Definition serverError : ApiError :=
  mkApiError (Some "Tool execution failed") (Some "Request failed with status code 500").

(** Backends without state. *)
Definition testAnswers (r : TestMessageResponse.t)
  : unit -> string -> TestMessageRequest.t -> unit * (ApiError + TestMessageResponse.t) :=
  fun b _ _ => (b, inr r).

Definition executeAnswers (r : ToolExecutionResponse.t)
  : unit -> string -> ToolExecutionRequest.t -> unit * (ApiError + ToolExecutionResponse.t) :=
  fun b _ _ => (b, inr r).

Definition executeRejects (e : ApiError)
  : unit -> string -> ToolExecutionRequest.t -> unit * (ApiError + ToolExecutionResponse.t) :=
  fun b _ _ => (b, inl e).

(** A save reached the backend: [handleSave] posted the batch update. *)
Definition reachesBackend (effects : list SaveEffect) : bool :=
  existsb
    (fun eff => match eff with PostBatchUpdate _ _ => true | _ => false end)
    effects.

(** A backend that accepts every batch update. *)
Definition acceptsUpdates
  : unit -> list EndpointConfigBatchUpdate.t ->
    unit * (ApiError + list EndpointConfigBatchUpdate.t) :=
  fun b updates => (b, inr updates).

Definition userIdParameter : ParameterConfigItem.t :=
  ParameterConfigItem.mk "userId" "string" in_path "The id of the user"
    true true false JNull.

(** Optional in the OpenAPI document, made mandatory by the user. *)
Definition limitParameter : ParameterConfigItem.t :=
  ParameterConfigItem.mk "limit" "integer" in_query "Page size"
    false true false JNull.

(** [GET /Users/{userId}], selected, no tool name, no description. *)
Definition endpointWithoutDescription : EndpointConfig.t :=
  EndpointConfig.mk "ep-1" "spec-1" "GET" "/Users/{userId}" (Some "getUser")
    true None None (Some [userIdParameter; limitParameter]) None None
    "Get a user" "" [] false.

(** The same endpoint with its description filled in. *)
Definition endpointWithDescription : EndpointConfig.t :=
  EndpointConfig.mk "ep-1" "spec-1" "GET" "/Users/{userId}" (Some "getUser")
    true None (Some "Retrieve a user by id")
    (Some [userIdParameter; limitParameter]) None None
    "Get a user" "" [] false.

(** Modelled from the spec: the tools of the servers given to the
    composer, each with the id of its server, in the order in which the
    composer places them (no such list exists in the sources). *)
Definition toolItems (servers : list DeployedServer)
  : list (string * ToolDefinition) :=
  flat_map (fun s => map (pair (ds_id s)) (tools s)) servers.

Definition getUserTool : ToolDefinition :=
  mkToolDefinition "get_user" "Retrieve a user by id"
    [("user_id", mkContractEntry "integer" true "The id of the user")].

Definition serverA : DeployedServer :=
  mkDeployedServer "aaaaaaaa-0001" "https://a.example.com" [getUserTool] true.

Definition serverB : DeployedServer :=
  mkDeployedServer "bbbbbbbb-0001" "https://b.example.com" [getUserTool] true.

(** Its id starts with the same eight characters as [serverB]'s. *)
Definition serverC : DeployedServer :=
  mkDeployedServer "bbbbbbbb-0002" "https://c.example.com" [getUserTool] true.

Definition sampleRegistry : gmap string DeployedServer :=
  register serverC (register serverB (register serverA ∅)).

(** A network that answers every request with 200 and the URL it was
    sent to, and an argument resolution that always yields one call. *)
Definition echoSend : unit -> HttpRequest -> unit * HttpOutcome :=
  fun w req => (w, HttpResponse 200 (JStr (url req))).

Definition userCall : ResolvedCall := mkResolvedCall "GET" "/users/1" [] [] None.

Definition resolveToUserCall : ToolDefinition -> Json -> CoreError + ResolvedCall :=
  fun _ _ => inr userCall.

(** ** More JavaScript string methods *)

(** [s.endsWith(suffix)]: some tail of [s] is [suffix]. *)
Fixpoint endsWith (s suffix : string) : bool :=
  String.eqb s suffix
  || match s with
     | EmptyString => false
     | String _ r => endsWith r suffix
     end.

(** [s.includes(q)]: some tail of [s] starts with [q]. *)
Fixpoint includes (s q : string) : bool :=
  String.prefix q s
  || match s with
     | EmptyString => false
     | String _ r => includes r q
     end.

(** [s.split(sep)] for a separator of one character: the pieces between
    the separators, empty pieces included; never an empty list. *)
Fixpoint split (sep : ascii) (s : string) : list string :=
  match s with
  | EmptyString => [EmptyString]
  | String c r =>
      if Ascii.eqb c sep then EmptyString :: split sep r
      else
        match split sep r with
        | [] => [String c EmptyString]
        | piece :: pieces => String c piece :: pieces
        end
  end.

(** [s.replace(c, '')] for a pattern of one character: the first
    occurrence goes, the others stay. *)
Fixpoint removeFirst (c : ascii) (s : string) : string :=
  match s with
  | EmptyString => EmptyString
  | String c' r => if Ascii.eqb c' c then r else String c' (removeFirst c r)
  end.

(** ** The file drop zone (FileUpload) *)

(** A [File], as far as the component reads it. *)
Record File : Type := mkFile {
  file_name : string;
  file_size : Z
}.

(** The two messages [validateFile] can set.  The text of each is a
    function of what it carries: the size limit, formatted in megabytes,
    or the [accept] list. *)
Inductive UploadError : Type :=
| FileTooLarge (maxSize : Z)
| InvalidFileType (accept : string).

Record FileUploadState : Type := mkFileUploadState {
  dragActive : bool;
  selectedFile : option File;
  uploadError : option UploadError
}.

Definition defaultAccept : string := ".json,.yaml,.yml".

(** [10 * 1024 * 1024] *)
Definition defaultMaxSize : Z := 10485760.

(** [accept.split(',').map((ext) => ext.trim())] *)
Definition validExtensions (accept : string) : list string :=
  map trim (split ","%char accept).

(** [validExtensions.some((ext) => fileName.endsWith(ext.replace('.', '')))] *)
Definition hasValidExtension (accept fileName : string) : bool :=
  existsb (fun ext => endsWith fileName (removeFirst "."%char ext))
    (validExtensions accept).

(** [validateFile]: the verdict, and the error the component shows after
    it ([setError(null)] comes first). *)
Definition validateFile (accept : string) (maxSize : Z) (file : File)
  : bool * option UploadError :=
  if negb (maxSize =? 0)%Z && (maxSize <? file_size file)%Z
  then (false, Some (FileTooLarge maxSize))
  else if negb (hasValidExtension accept (toLowerCase (file_name file)))
  then (false, Some (InvalidFileType accept))
  else (true, None).

(** [handleDrop] with the files of the drop; the second component lists
    the calls of [onFileSelect]. *)
Definition handleDrop (accept : string) (maxSize : Z) (files : list File)
    (st : FileUploadState) : FileUploadState * list File :=
  match files with
  | [] => (mkFileUploadState false (selectedFile st) (uploadError st), [])
  | file :: _ =>
      match validateFile accept maxSize file with
      | (true, err) => (mkFileUploadState false (Some file) err, [file])
      | (false, err) => (mkFileUploadState false (selectedFile st) err, [])
      end
  end.

(** [handleChange] of the hidden file input. *)
Definition handleFileChange (accept : string) (maxSize : Z) (files : list File)
    (st : FileUploadState) : FileUploadState * list File :=
  match files with
  | [] => (st, [])
  | file :: _ =>
      match validateFile accept maxSize file with
      | (true, err) => (mkFileUploadState (dragActive st) (Some file) err, [file])
      | (false, err) => (mkFileUploadState (dragActive st) (selectedFile st) err, [])
      end
  end.

(** [handleRemove] *)
Definition handleRemove (st : FileUploadState) : FileUploadState :=
  mkFileUploadState (dragActive st) None None.

Definition initialFileUpload : FileUploadState :=
  mkFileUploadState false None None.

(** ** The import dialog (SpecUploader) *)

Module SpecUploader.

Inductive ContentFormat : Type := json | yaml.

Record State : Type := mkState {
  selectedTab : string;
  selectedFile : option File;
  url : string;
  content : string;
  contentFormat : ContentFormat
}.

(** The [useState] defaults. *)
Definition initial : State := mkState "file" None "" "" json.

(** The bodies of the three mutations. *)
Inductive Request : Type :=
| UploadFile (projectId : string) (file : File)
| FromURL (project_id url : string)
| FromContent (project_id content : string) (format : ContentFormat).

(** What a handler does to the outside, in order.  [OnSuccess] is the
    call [onSuccess?.()]. *)
Inductive Effect : Type :=
| Mutate (r : Request)
| OnSuccess
| OnOpenChange (open : bool)
| ConsoleError (label : string).

(** [onFileSelect={setSelectedFile}] *)
Definition setSelectedFile (file : option File) (st : State) : State :=
  mkState (selectedTab st) file (url st) (content st) (contentFormat st).

(** [canSubmit] *)
Definition canSubmit (st : State) : bool :=
  if String.eqb (selectedTab st) "file" then
    match selectedFile st with Some _ => true | None => false end
  else if String.eqb (selectedTab st) "url" then truthy (url st)
  else if String.eqb (selectedTab st) "paste" then truthy (content st)
  else false.

(** [handleClose]; [isUploading] is the value the render closed over. *)
Definition handleClose (isUploading : bool) (st : State) : State * list Effect :=
  if negb isUploading
  then (mkState "file" None "" "" (contentFormat st), [OnOpenChange false])
  else (st, []).

Section Handlers.

Context {Backend : Type}.
(** [mutateAsync] of the three hooks: resolved ([true]) or rejected. *)
Variable mutateAsync : Backend -> Request -> Backend * bool.
Variable projectId : string.
Variable isUploading : bool.

(** The [try { await ...; onSuccess?.(); handleClose() } catch] the three
    handlers share. *)
Definition tryImport (label : string) (r : Request) (b : Backend) (st : State)
  : Backend * State * list Effect :=
  match mutateAsync b r with
  | (b1, true) =>
      let (st1, closing) := handleClose isUploading st in
      (b1, st1, Mutate r :: OnSuccess :: closing)
  | (b1, false) => (b1, st, [Mutate r; ConsoleError label])
  end.

Definition handleFileUpload (b : Backend) (st : State)
  : Backend * State * list Effect :=
  match selectedFile st with
  | None => (b, st, [])
  | Some file => tryImport "Upload failed:" (UploadFile projectId file) b st
  end.

Definition handleURLSubmit (b : Backend) (st : State)
  : Backend * State * list Effect :=
  if negb (truthy (url st)) then (b, st, [])
  else tryImport "Failed to fetch from URL:" (FromURL projectId (url st)) b st.

Definition handleContentSubmit (b : Backend) (st : State)
  : Backend * State * list Effect :=
  if negb (truthy (content st)) then (b, st, [])
  else tryImport "Failed to create from content:"
         (FromContent projectId (content st) (contentFormat st)) b st.

(** [handleSubmit]: the [switch] on the tab, without a default branch. *)
Definition handleSubmit (b : Backend) (st : State)
  : Backend * State * list Effect :=
  if String.eqb (selectedTab st) "file" then handleFileUpload b st
  else if String.eqb (selectedTab st) "url" then handleURLSubmit b st
  else if String.eqb (selectedTab st) "paste" then handleContentSubmit b st
  else (b, st, []).

End Handlers.

(** The dialog with the drop zone in it: a drop in [FileUpload] calls
    [onFileSelect], which is [setSelectedFile]; the drop zone's remove
    button runs [handleRemove] of [FileUpload] only. *)
Definition dropInDialog (files : list File)
    (st : FileUploadState * State) : FileUploadState * State :=
  let (zone, called) := handleDrop defaultAccept defaultMaxSize files (fst st) in
  (zone, fold_left (fun s file => setSelectedFile (Some file) s) called (snd st)).

Definition removeInDialog (st : FileUploadState * State)
  : FileUploadState * State :=
  (handleRemove (fst st), snd st).

End SpecUploader.

(** ** Searching the deployed servers (Deployment page, AI Sandbox page) *)

(** A deployed server as the two search boxes read it ([any] in the
    source); each of the three texts may be missing. *)
Record ServerRow : Type := mkServerRow {
  row_id : string;
  row_project_name : option string;
  row_server_name : option string;
  row_base_url : option string
}.

(** [field?.toLowerCase().includes(query)], falsy when the field is
    missing. *)
Definition fieldIncludes (field : option string) (query : string) : bool :=
  match field with
  | Some text => includes (toLowerCase text) query
  | None => false
  end.

(** [servers] of the AI Sandbox page. *)
Definition sandboxServers (searchQuery : string) (allServers : list ServerRow)
  : list ServerRow :=
  List.filter
    (fun server =>
       if negb (truthy (trim searchQuery)) then true
       else
         let query := toLowerCase searchQuery in
         fieldIncludes (row_project_name server) query
         || fieldIncludes (row_server_name server) query)
    allServers.

(** [servers] of the Deployment page. *)
Definition deploymentServers (searchQuery : string) (allServers : list ServerRow)
  : list ServerRow :=
  if negb (truthy (trim searchQuery)) then allServers
  else
    let query := toLowerCase searchQuery in
    List.filter
      (fun server =>
         fieldIncludes (row_project_name server) query
         || fieldIncludes (row_server_name server) query
         || fieldIncludes (row_base_url server) query)
      allServers.

(** ** Starting and stopping deployed servers (Deployment page) *)

(** Query keys of the generation hooks (useGeneration). *)
Module generationKeys.

Definition all : list string := ["generations"].
Definition bySpec (specId : string) : list string := all ++ ["spec"; specId].
Definition byId (generationId : string) : list string :=
  all ++ ["id"; generationId].

End generationKeys.

Module DeployedMCPsPage.

(** The requests of the page: the three POST and DELETE requests of its
    handlers and hooks on one generated server, and the GET of the query
    of [useDeployedServers]. *)
Inductive Call : Type :=
| Undeploy (serverId : string)
| Deploy (serverId : string)
| Delete (serverId : string)
| GetDeployedServers.

(** What a handler does to the outside, in the order in which it
    happens; a request is listed where it is sent, with its outcome
    (resolved or rejected), a question with its answer. *)
Inductive Effect : Type :=
| Confirm (text : string) (agreed : bool)
| Request (c : Call) (accepted : bool)
| Wait (ms : Z)
| ConsoleError (label : string)
| Alert (text : string).

(** The key of the query of [useDeployedServers]. *)
Definition deployedServersKey : list string := ["deployed-servers"].

(** [onSuccess] of [useUndeployMCP]: the keys it hands to
    [invalidateQueries], in order. *)
Definition undeployInvalidates (generationId : string) : list (list string) :=
  [generationKeys.byId generationId; deployedServersKey].

(** [onSuccess] of [useDeleteMCP]. *)
Definition deleteInvalidates (generationId : string) : list (list string) :=
  [generationKeys.byId generationId; deployedServersKey; generationKeys.all].

(** The queries the page holds while it is shown, each with the request
    that fetches it: the one of [useDeployedServers]. *)
Definition mountedQueries : list (list string * Call) :=
  [(deployedServersKey, GetDeployedServers)].

(** [key] is a prefix of [queryKey]. *)
Fixpoint keyPrefix (key queryKey : list string) : bool :=
  match key, queryKey with
  | [], _ => true
  | k :: key', q :: queryKey' => String.eqb k q && keyPrefix key' queryKey'
  | _ :: _, [] => false
  end.

(** [queryClient.invalidateQueries({ queryKey })]: every mounted query
    whose key starts with [queryKey] is fetched again. *)
Definition invalidateQueries (queryKey : list string) : list Call :=
  map snd (List.filter (fun q => keyPrefix queryKey (fst q)) mountedQueries).

Definition stopQuestion (serverName : string) : string :=
  "Are you sure you want to stop " +:+ String "034" serverName
    +:+ String "034" "?".

Definition deleteQuestion (serverName : string) : string :=
  "Are you sure you want to permanently delete " +:+ String "034" serverName
    +:+ String "034" "? This action cannot be undone.".

(** The [catch] block of a handler. *)
Definition failed (label text : string) : list Effect :=
  [ConsoleError label; Alert text].

Section Handlers.

Context {World : Type}.
(** The user's answer to [confirm], and the backend's to a request:
    resolved ([true]) or rejected. *)
Variable confirm : World -> string -> World * bool.
Variable call : World -> Call -> World * bool.

(** Requests sent one after the other, whatever they answer: the
    fetches of an invalidation or of [refetch()], which nobody awaits
    for their outcome. *)
Fixpoint sendAll (calls : list Call) (w : World) : World * list Effect :=
  match calls with
  | [] => (w, [])
  | c :: rest =>
      match call w c with
      | (w1, accepted) =>
          match sendAll rest w1 with
          | (w2, effects) => (w2, Request c accepted :: effects)
          end
      end
  end.

(** [mutateAsync] of a hook: the request, and when it is accepted the
    hook's [onSuccess], which invalidates the keys given.  The promise
    is rejected exactly when the request is. *)
Definition mutateAsync (c : Call) (invalidated : list (list string)) (w : World)
  : World * bool * list Effect :=
  match call w c with
  | (w1, true) =>
      match sendAll (flat_map invalidateQueries invalidated) w1 with
      | (w2, effects) => (w2, true, Request c true :: effects)
      end
  | (w1, false) => (w1, false, [Request c false])
  end.

(** [await refetch()] of the query of [useDeployedServers]: the query is
    fetched again, and the promise resolves whatever the fetch answers. *)
Definition refetch (w : World) : World * list Effect :=
  sendAll [GetDeployedServers] w.

Definition handleStop (serverId serverName : string) (w : World)
  : World * list Effect :=
  let question := stopQuestion serverName in
  match confirm w question with
  | (w1, false) => (w1, [Confirm question false])
  | (w1, true) =>
      match mutateAsync (Undeploy serverId) (undeployInvalidates serverId) w1 with
      | (w2, true, effects) =>
          (w2, Confirm question true :: effects
                 ++ [Alert "MCP server stopped successfully"])
      | (w2, false, effects) =>
          (w2, Confirm question true :: effects
                 ++ failed "Failed to stop MCP:"
                      "Failed to stop MCP server. Please try again.")
      end
  end.

Definition handleStart (serverId serverName : string) (w : World)
  : World * list Effect :=
  match call w (Deploy serverId) with
  | (w1, false) =>
      (w1, Request (Deploy serverId) false
             :: failed "Failed to start MCP:"
                  "Failed to start MCP server. Please try again.")
  | (w1, true) =>
      match refetch w1 with
      | (w2, effects) =>
          (w2, Request (Deploy serverId) true :: effects
                 ++ [Alert "MCP server started successfully"])
      end
  end.

Definition handleRestart (serverId serverName : string) (w : World)
  : World * list Effect :=
  let giveUp :=
    failed "Failed to restart MCP:"
      "Failed to restart MCP server. Please try again." in
  match mutateAsync (Undeploy serverId) (undeployInvalidates serverId) w with
  | (w1, false, effects) => (w1, effects ++ giveUp)
  | (w1, true, effects) =>
      match call w1 (Deploy serverId) with
      | (w2, false) =>
          (w2, effects ++ [Wait 1000; Request (Deploy serverId) false] ++ giveUp)
      | (w2, true) =>
          match refetch w2 with
          | (w3, fetched) =>
              (w3, effects ++ [Wait 1000; Request (Deploy serverId) true]
                     ++ fetched ++ [Alert "MCP server restarted successfully"])
          end
      end
  end.

Definition handleDelete (serverId serverName : string) (w : World)
  : World * list Effect :=
  let question := deleteQuestion serverName in
  match confirm w question with
  | (w1, false) => (w1, [Confirm question false])
  | (w1, true) =>
      match mutateAsync (Delete serverId) (deleteInvalidates serverId) w1 with
      | (w2, true, effects) =>
          (w2, Confirm question true :: effects
                 ++ [Alert "MCP server deleted successfully"])
      | (w2, false, effects) =>
          (w2, Confirm question true :: effects
                 ++ failed "Failed to delete MCP:"
                      "Failed to delete MCP server. Please try again.")
      end
  end.

End Handlers.

(** The requests among the effects, in order, with their outcomes. *)
Definition requests (effects : list Effect) : list (Call * bool) :=
  omap (fun e => match e with Request c ok => Some (c, ok) | _ => None end) effects.

(** The alerts among the effects, in order. *)
Definition alerts (effects : list Effect) : list string :=
  omap (fun e => match e with Alert t => Some t | _ => None end) effects.

End DeployedMCPsPage.

(** ** The endpoint card's handlers (EndpointCard) *)

(** [{ ...endpoint, is_selected: checked }] and its like. *)
Definition withSelected (checked : bool) (e : EndpointConfig.t) : EndpointConfig.t :=
  EndpointConfig.mk (EndpointConfig.id e) (EndpointConfig.swagger_spec_id e)
    (EndpointConfig.http_method e) (EndpointConfig.path e)
    (EndpointConfig.operation_id e) checked
    (EndpointConfig.mcp_tool_name e) (EndpointConfig.mcp_description e)
    (EndpointConfig.parameter_configurations e)
    (EndpointConfig.request_schema e) (EndpointConfig.response_schema e)
    (EndpointConfig.summary e) (EndpointConfig.description e)
    (EndpointConfig.tags e) (EndpointConfig.deprecated e).

Definition withToolName (n : option string) (e : EndpointConfig.t) : EndpointConfig.t :=
  EndpointConfig.mk (EndpointConfig.id e) (EndpointConfig.swagger_spec_id e)
    (EndpointConfig.http_method e) (EndpointConfig.path e)
    (EndpointConfig.operation_id e) (EndpointConfig.is_selected e)
    n (EndpointConfig.mcp_description e)
    (EndpointConfig.parameter_configurations e)
    (EndpointConfig.request_schema e) (EndpointConfig.response_schema e)
    (EndpointConfig.summary e) (EndpointConfig.description e)
    (EndpointConfig.tags e) (EndpointConfig.deprecated e).

Definition withDescription (d : option string) (e : EndpointConfig.t) : EndpointConfig.t :=
  EndpointConfig.mk (EndpointConfig.id e) (EndpointConfig.swagger_spec_id e)
    (EndpointConfig.http_method e) (EndpointConfig.path e)
    (EndpointConfig.operation_id e) (EndpointConfig.is_selected e)
    (EndpointConfig.mcp_tool_name e) d
    (EndpointConfig.parameter_configurations e)
    (EndpointConfig.request_schema e) (EndpointConfig.response_schema e)
    (EndpointConfig.summary e) (EndpointConfig.description e)
    (EndpointConfig.tags e) (EndpointConfig.deprecated e).

Definition withParameters (ps : option (list ParameterConfigItem.t))
    (e : EndpointConfig.t) : EndpointConfig.t :=
  EndpointConfig.mk (EndpointConfig.id e) (EndpointConfig.swagger_spec_id e)
    (EndpointConfig.http_method e) (EndpointConfig.path e)
    (EndpointConfig.operation_id e) (EndpointConfig.is_selected e)
    (EndpointConfig.mcp_tool_name e) (EndpointConfig.mcp_description e)
    ps
    (EndpointConfig.request_schema e) (EndpointConfig.response_schema e)
    (EndpointConfig.summary e) (EndpointConfig.description e)
    (EndpointConfig.tags e) (EndpointConfig.deprecated e).

(** Replacing by key, as the two [map]s of the card and of the page do
    it: the element whose key is that of [u] becomes [u]. *)
Definition replaceByKey {A : Type} (key : A -> string) (u x : A) : A :=
  if String.eqb (key x) (key u) then u else x.

(** [param.name === updatedParam.name ? updatedParam : param] *)
Definition replaceParameter (updatedParam param : ParameterConfigItem.t)
  : ParameterConfigItem.t :=
  if String.eqb (ParameterConfigItem.name param) (ParameterConfigItem.name updatedParam)
  then updatedParam else param.

(** [handleParameterChange]: what goes to [onChange].  An absent list
    stays absent ([updatedParams || null]). *)
Definition handleParameterChange (updatedParam : ParameterConfigItem.t)
    (endpoint : EndpointConfig.t) : EndpointConfig.t :=
  withParameters
    (option_map (map (replaceParameter updatedParam))
       (EndpointConfig.parameter_configurations endpoint))
    endpoint.

(** The tool-name input: [mcp_tool_name: e.target.value || null]. *)
Definition handleToolNameInput (value : string) (endpoint : EndpointConfig.t)
  : EndpointConfig.t :=
  withToolName (or_undefined value) endpoint.

(** The description input: [mcp_description: e.target.value || null]. *)
Definition handleDescriptionInput (value : string) (endpoint : EndpointConfig.t)
  : EndpointConfig.t :=
  withDescription (or_undefined value) endpoint.

(** [isConfigured], as the badge reads it. *)
Definition isConfigured (e : EndpointConfig.t) : bool :=
  EndpointConfig.is_selected e && truthy_opt (EndpointConfig.mcp_description e).

(** ** The endpoint configuration page: local state, filter, counters *)

Record SelectionState : Type := mkSelectionState {
  localConfigs : list EndpointConfig.t;
  configSearchQuery : string;
  filterMethod : option string;
  hasChanges : bool
}.

(** The effect [if (configs && !hasChanges) setLocalConfigs(configs)];
    [configs] is the fetched list, absent while loading. *)
Definition syncConfigs (configs : option (list EndpointConfig.t))
    (st : SelectionState) : SelectionState :=
  match configs with
  | Some fetched =>
      if negb (hasChanges st)
      then mkSelectionState fetched (configSearchQuery st) (filterMethod st)
             (hasChanges st)
      else st
  | None => st
  end.

(** [config.id === updatedConfig.id ? updatedConfig : config] *)
Definition replaceConfig (updatedConfig config : EndpointConfig.t) : EndpointConfig.t :=
  if String.eqb (EndpointConfig.id config) (EndpointConfig.id updatedConfig)
  then updatedConfig else config.

(** [handleConfigChange] *)
Definition handleConfigChange (updatedConfig : EndpointConfig.t)
    (st : SelectionState) : SelectionState :=
  mkSelectionState (map (replaceConfig updatedConfig) (localConfigs st))
    (configSearchQuery st) (filterMethod st) true.

(** The predicate of [filteredConfigs]. *)
Definition matchesFilter (searchQuery : string) (method : option string)
    (config : EndpointConfig.t) : bool :=
  let matchesSearch :=
    includes (toLowerCase (EndpointConfig.path config)) (toLowerCase searchQuery)
    || includes (toLowerCase (EndpointConfig.summary config)) (toLowerCase searchQuery) in
  let matchesMethod :=
    negb (truthy_opt method)
    || String.eqb (EndpointConfig.http_method config) (default "" method) in
  matchesSearch && matchesMethod.

Definition filteredConfigs (st : SelectionState) : list EndpointConfig.t :=
  List.filter (matchesFilter (configSearchQuery st) (filterMethod st))
    (localConfigs st).

Definition selectedCount (st : SelectionState) : nat :=
  length (List.filter EndpointConfig.is_selected (localConfigs st)).

(** [Array.from(new Set(l))]: the first occurrence of each value, in
    order.  [seen] holds the values the set already has. *)
Fixpoint fromSet (seen l : list string) : list string :=
  match l with
  | [] => []
  | x :: rest =>
      if bool_decide (x ∈ seen) then fromSet seen rest
      else x :: fromSet (x :: seen) rest
  end.

(** [methods]: the filter buttons. *)
Definition methods (st : SelectionState) : list string :=
  fromSet [] (map EndpointConfig.http_method (localConfigs st)).

(** A click on a method button: [setFilterMethod(method)]. *)
Definition setFilterMethod (method : option string) (st : SelectionState)
  : SelectionState :=
  mkSelectionState (localConfigs st) (configSearchQuery st) method (hasChanges st).

Definition setSearchQuery (q : string) (st : SelectionState) : SelectionState :=
  mkSelectionState (localConfigs st) q (filterMethod st) (hasChanges st).

(** ** More of the AI Sandbox page *)

(** [handleClearChat] *)
Definition handleClearChat (st : PageState) : PageState :=
  mkPageState (selectedServerIds st) [] (inputMessage st)
    [] (provider st) (anthropicModel st)
    (anthropicApiKey st) (openaiModel st) (openaiApiKey st)
    (openaiBaseUrl st) (authorization st).

(** The selection and the provider settings of the page: the state
    variables [handleSendMessage] has no setter call for. *)
Definition pageSettings (st : PageState)
  : list string * Provider * string * string * string * string * string * string :=
  (selectedServerIds st, provider st, anthropicModel st, anthropicApiKey st,
   openaiModel st, openaiApiKey st, openaiBaseUrl st, authorization st).

(** The message an exchange leaves on the page: the answer, or the error
    message of the [catch] block. *)
Definition messageOf (x : Exchange) : Message :=
  match x with
  | TestExchange _ _ (inr result) => assistantMessage result
  | ExecuteExchange _ _ (inr toolResult) => finalMessage toolResult
  | TestExchange _ _ (inl err) | ExecuteExchange _ _ (inl err) => errorMessage err
  end.

(** The conversation history an answered exchange brings back. *)
Definition historyReceived (x : Exchange) : option (list Json) :=
  match x with
  | TestExchange _ _ (inr result) =>
      Some (TestMessageResponse.conversation_history result)
  | ExecuteExchange _ _ (inr toolResult) =>
      Some (ToolExecutionResponse.conversation_history toolResult)
  | _ => None
  end.

(** The history received last in [log], or [before] when none was. *)
Definition lastHistory (log : list Exchange) (before : list Json) : list Json :=
  fold_left (fun h x => default h (historyReceived x)) log before.

(** The conversation history a request carries. *)
Definition historySent (x : Exchange) : list Json :=
  match x with
  | TestExchange _ req _ => TestMessageRequest.conversation_history req
  | ExecuteExchange _ req _ => ToolExecutionRequest.conversation_history req
  end.

(** What a request carries besides the message or the tool call and the
    history: the server in the URL, the provider settings, the selected
    servers and the authorization. *)
Record RequestSettings : Type := mkRequestSettings {
  rs_serverId : string;
  rs_provider : Provider;
  rs_model : string;
  rs_api_key : option string;
  rs_base_url : option string;
  rs_server_ids : list string;
  rs_authorization : option string
}.

Definition settingsSent (x : Exchange) : RequestSettings :=
  match x with
  | TestExchange sid req _ =>
      mkRequestSettings sid (TestMessageRequest.provider req)
        (TestMessageRequest.model req) (TestMessageRequest.api_key req)
        (TestMessageRequest.base_url req) (TestMessageRequest.server_ids req)
        (TestMessageRequest.authorization req)
  | ExecuteExchange sid req _ =>
      mkRequestSettings sid (ToolExecutionRequest.provider req)
        (ToolExecutionRequest.model req) (ToolExecutionRequest.api_key req)
        (ToolExecutionRequest.base_url req) (ToolExecutionRequest.server_ids req)
        (ToolExecutionRequest.authorization req)
  end.

(** The tool call an execute request is for. *)
Definition toolCallSent (x : Exchange) : option ToolCall :=
  match x with
  | ExecuteExchange _ req _ => Some (ToolExecutionRequest.tool_call req)
  | TestExchange _ _ _ => None
  end.

(** The API key field of the selected provider. *)
Definition selectedProviderKey (st : PageState) : string :=
  match provider st with
  | openai => openaiApiKey st
  | anthropic => anthropicApiKey st
  end.

(** ** Query keys of the specification hooks (useSwaggerSpec) *)

Module swaggerSpecKeys.

Definition all : list string := ["swagger-specs"].
Definition lists : list string := all ++ ["list"].
Definition listByProject (projectId : string) : list string := lists ++ [projectId].
Definition details : list string := all ++ ["detail"].
Definition detail (id : string) : list string := details ++ [id].
Definition endpoints (id : string) : list string := detail id ++ ["endpoints"].

End swaggerSpecKeys.

(** [onSuccess] of [useUpdateBaseURL]: the keys it hands to
    [invalidateQueries], for the updated specification [data]. *)
Definition updateBaseURLInvalidates (data_id data_project_id : string)
  : list (list string) :=
  [swaggerSpecKeys.detail data_id; swaggerSpecKeys.listByProject data_project_id].

(** [onSuccess] of [useDeleteSwaggerSpec]. *)
Definition deleteSwaggerSpecInvalidates : list (list string) :=
  [swaggerSpecKeys.lists].

(** A query key lies under one of the given keys: one of them is a
    prefix of it. *)
Definition liesUnder (keys : list (list string)) (queryKey : list string) : Prop :=
  exists k, In k keys /\ k `prefix_of` queryKey.

(** The save went through and nothing else happened: the effects are the
    one batch update. *)
Definition savedCleanly (effects : list SaveEffect) : bool :=
  match effects with
  | [PostBatchUpdate _ _] => true
  | _ => false
  end.

(** * Properties *)

(** ** Strings *)

Lemma trimStart_whitespaceOnly (s : string) :
  whitespaceOnly s = true -> trimStart s = "".
Proof.
  induction s as [|c r IH]; simpl; [reflexivity|].
  intros H. apply andb_true_iff in H as [Hc Hr].
  rewrite Hc. exact (IH Hr).
Qed.

Lemma trim_whitespaceOnly (s : string) :
  whitespaceOnly s = true -> trim s = "".
Proof.
  intros H. unfold trim. rewrite (trimStart_whitespaceOnly s H). reflexivity.
Qed.

(** The converse: [trim] leaves nothing only of a white-space string. *)
Lemma trimStart_empty (s : string) :
  trimStart s = "" -> whitespaceOnly s = true.
Proof.
  induction s as [|c r IH]; simpl; [reflexivity|].
  destruct (isWhiteSpace c); [intros H; exact (IH H) | discriminate].
Qed.

Lemma trimEnd_empty (s : string) :
  trimEnd s = "" -> whitespaceOnly s = true.
Proof.
  induction s as [|c r IH]; simpl; [reflexivity|].
  destruct (trimEnd r) eqn:E; [|discriminate].
  destruct (isWhiteSpace c); [intros _; exact (IH eq_refl) | discriminate].
Qed.

Lemma whitespaceOnly_trimStart (s : string) :
  whitespaceOnly (trimStart s) = whitespaceOnly s.
Proof.
  induction s as [|c r IH]; simpl; [reflexivity|].
  destruct (isWhiteSpace c) eqn:E; simpl; [exact IH | now rewrite E].
Qed.

Lemma trim_empty_iff (s : string) :
  trim s = "" <-> whitespaceOnly s = true.
Proof.
  split; [|apply trim_whitespaceOnly].
  unfold trim. intros H. apply trimEnd_empty in H.
  now rewrite whitespaceOnly_trimStart in H.
Qed.

(** ** The AI Sandbox page *)

(** The guard of [handleSendMessage] stops a state exactly when the
    input is empty or white space only, or no server is selected. *)
Lemma handleSendMessage_guard (st : PageState) :
  negb (truthy (trim (inputMessage st)))
    || (length (selectedServerIds st) =? 0)%nat = true
  <-> whitespaceOnly (inputMessage st) = true \/ selectedServerIds st = [].
Proof.
  rewrite orb_true_iff. unfold truthy. rewrite negb_involutive.
  rewrite String.eqb_eq, trim_empty_iff, Nat.eqb_eq.
  split; intros [H|H]; auto; right.
  - now destruct (selectedServerIds st).
  - now rewrite H.
Qed.

Section AITestingPageFacts.

Context {Backend : Type}.
Variable postTest :
  Backend -> string -> TestMessageRequest.t ->
  Backend * (ApiError + TestMessageResponse.t).
Variable postExecuteTool :
  Backend -> string -> ToolExecutionRequest.t ->
  Backend * (ApiError + ToolExecutionResponse.t).

(** C10: submitting with an empty or white-space-only input, or with no
    server selected, does nothing: the page state (message list and
    conversation history included) and the backend are as before, and no
    request is sent. *)
Theorem handleSendMessage_blank_is_noop (b : Backend) (st : PageState) :
  whitespaceOnly (inputMessage st) = true \/ selectedServerIds st = [] ->
  handleSendMessage postTest postExecuteTool b st = (b, st, []).
Proof.
  intros H. apply handleSendMessage_guard in H.
  unfold handleSendMessage. now rewrite H.
Qed.

(** The loop over the invocations: what it sends, what it shows, when it
    stops. *)
Lemma executeTools_run (st0 : PageState) (hist : list Json)
    (calls : list ToolCall) :
  forall (b : Backend) (st : PageState) b' st' log thrown,
    executeTools postExecuteTool st0 hist calls b st = (b', st', log, thrown) ->
    Forall2 (exchangeFor st0 hist) (take (length log) calls) log
    /\ Forall (fun x => succeeded x = true) (removelast log)
    /\ messages st' = messages st ++ omap toolResultMessage log
    /\ omap rejection log = option_list thrown
    /\ (thrown = None -> length log = length calls).
Proof.
  induction calls as [|c rest IH]; intros b st b' st' log thrown; simpl.
  - intros [= <- <- <- <-]. simpl. rewrite app_nil_r. repeat split; constructor.
  - destruct (postExecuteTool b (primaryServerId st0) (executeRequest st0 hist c))
      as [b1 [err|toolResult]] eqn:Hpost.
    + intros [= <- <- <- <-]. simpl. rewrite app_nil_r.
      repeat split; try constructor; try (eexists; reflexivity); try constructor.
      discriminate.
    + destruct (executeTools postExecuteTool st0 hist rest b1 _)
        as [[[b2 st2] log2] thrown2] eqn:Hrest.
      intros [= <- <- <- <-].
      destruct (IH _ _ _ _ _ _ Hrest) as (Hreq & Hok & Hmsg & Hrej & Hall).
      simpl. repeat split.
      * constructor; [eexists; reflexivity | exact Hreq].
      * destruct log2 as [|x log2]; [constructor|].
        constructor; [reflexivity | exact Hok].
      * rewrite Hmsg. simpl. now rewrite <- app_assoc.
      * exact Hrej.
      * intros Hn. now rewrite (Hall Hn).
Qed.

Lemma answered_all_have_results (st0 : PageState) (hist : list Json)
    (cs : list ToolCall) (log : list Exchange) :
  Forall2 (exchangeFor st0 hist) cs log ->
  omap rejection log = [] ->
  length (omap toolResultMessage log) = length log.
Proof.
  induction 1 as [|c x cs log [res ->] _ IH]; [reflexivity|].
  destruct res as [err|r]; simpl; [discriminate|].
  intros Hnone. f_equal. exact (IH Hnone).
Qed.

(** C1 (as amended): when the provider answer asks for tool execution,
    the handler sends the execute requests one after the other, in the
    order of the invocations, and sends no second test request.  As long
    as the requests are answered each leaves a tool-result message; when
    all are answered every invocation has its result.  A rejected request
    is the last one: the turn ends there with an error message. *)
Theorem tool_results_until_first_rejection (b b1 : Backend) (st : PageState)
    (result : TestMessageResponse.t) :
  whitespaceOnly (inputMessage st) = false ->
  selectedServerIds st <> [] ->
  postTest b (primaryServerId st) (testRequest st) = (b1, inr result) ->
  TestMessageResponse.requires_tool_execution result = true ->
  let calls := TestMessageResponse.tool_calls result in
  let hist := TestMessageResponse.conversation_history result in
  exists b' st' execs,
    handleSendMessage postTest postExecuteTool b st
    = (b', st',
       TestExchange (primaryServerId st) (testRequest st) (inr result) :: execs)
    /\ Forall2 (exchangeFor st hist) (take (length execs) calls) execs
    /\ Forall (fun x => succeeded x = true) (removelast execs)
    /\ messages st'
       = messages st
           ++ userMessage st :: assistantMessage result
              :: omap toolResultMessage execs
                 ++ map errorMessage (omap rejection execs)
    /\ (omap rejection execs = [] ->
        length (omap toolResultMessage execs) = length calls).
Proof.
  intros Hin Hsel Htest Hreq calls hist. subst calls hist.
  unfold handleSendMessage.
  assert (Hguard : negb (truthy (trim (inputMessage st)))
                   || (length (selectedServerIds st) =? 0)%nat = false).
  { apply not_true_is_false. intros H.
    apply handleSendMessage_guard in H as [H|H]; congruence. }
  rewrite Hguard, Htest, Hreq. simpl andb.
  destruct (0 <? length (TestMessageResponse.tool_calls result))%nat eqn:Hlen.
  - destruct (executeTools postExecuteTool st _ _ b1 _)
      as [[[b2 st3] log] thrown] eqn:Hrun.
    destruct (executeTools_run _ _ _ _ _ _ _ _ _ Hrun)
      as (Hshape & Hok & Hmsg & Hrej & Hall).
    simpl in Hmsg.
    assert (Hres : omap rejection log = [] ->
                   length (omap toolResultMessage log)
                   = length (TestMessageResponse.tool_calls result)).
    { intros Hnone. rewrite Hnone in Hrej.
      destruct thrown; [discriminate|].
      rewrite <- (Hall eq_refl).
      exact (answered_all_have_results _ _ _ _ Hshape Hnone). }
    destruct thrown as [err|].
    + exists b2, (pushMessage (errorMessage err) st3), log.
      repeat split; auto.
      simpl. rewrite Hmsg, Hrej. simpl.
      rewrite <- !app_assoc. reflexivity.
    + exists b2, st3, log. repeat split; auto.
      rewrite Hmsg, Hrej. simpl. rewrite app_nil_r, <- !app_assoc. reflexivity.
  - exists b1, (pushMessage (assistantMessage result)
                 (setConversationHistory
                    (TestMessageResponse.conversation_history result)
                    (setInputMessage "" (pushMessage (userMessage st) st)))), [].
    apply Nat.ltb_ge in Hlen.
    assert (Hnil : TestMessageResponse.tool_calls result = [])
      by (destruct (TestMessageResponse.tool_calls result);
          [reflexivity | simpl in Hlen; lia]).
    repeat split; try constructor.
    + simpl. rewrite <- app_assoc. reflexivity.
    + intros _. now rewrite Hnil.
Qed.

End AITestingPageFacts.

(** The turn of the sample state against a backend that asks for
    [call1] and [call2] and answers every execution. *)
Lemma tool_results_sample :
  exists b' st' execs,
    handleSendMessage (testAnswers (answerWithCalls [call1; call2]))
      (executeAnswers (executionAnswer [])) tt sampleState
    = (b', st',
       TestExchange (primaryServerId sampleState) (testRequest sampleState)
         (inr (answerWithCalls [call1; call2])) :: execs)
    /\ Forall2 (exchangeFor sampleState [JStr "turn-1"])
         (take (length execs) [call1; call2]) execs
    /\ Forall (fun x => succeeded x = true) (removelast execs)
    /\ messages st'
       = messages sampleState
           ++ userMessage sampleState
              :: assistantMessage (answerWithCalls [call1; call2])
              :: omap toolResultMessage execs
                 ++ map errorMessage (omap rejection execs)
    /\ (omap rejection execs = [] ->
        length (omap toolResultMessage execs) = length [call1; call2]).
Proof.
  apply (tool_results_until_first_rejection
           (testAnswers (answerWithCalls [call1; call2]))
           (executeAnswers (executionAnswer [])) tt tt sampleState
           (answerWithCalls [call1; call2]));
    [reflexivity | discriminate | reflexivity | reflexivity].
Defined.

(** C1, as the specification states it, fails: the backend asks for two
    invocations and rejects the first execute request; the second
    invocation is never sent for execution and the page shows no result
    for it. *)
Lemma rejected_execution_leaves_invocation_without_result :
  let run :=
    handleSendMessage (testAnswers (answerWithCalls [call1; call2]))
      (executeRejects serverError) tt sampleState in
  everyInvocationDispatched [call1; call2] (snd run) = false
  /\ omap toolResultMessage (snd run) = [].
Proof. split; reflexivity. Qed.

Section AITestingPageRounds.

Context {Backend : Type}.
Variable postTest :
  Backend -> string -> TestMessageRequest.t ->
  Backend * (ApiError + TestMessageResponse.t).
Variable postExecuteTool :
  Backend -> string -> ToolExecutionRequest.t ->
  Backend * (ApiError + ToolExecutionResponse.t).

Lemma exchangeFor_execute (st0 : PageState) (hist : list Json)
    (cs : list ToolCall) (log : list Exchange) :
  Forall2 (exchangeFor st0 hist) cs log ->
  forallb isExecuteExchange log = true.
Proof.
  induction 1 as [|c x cs log [res ->] _ IH]; [reflexivity|]. exact IH.
Qed.

(** One round at most: nothing is sent, or one test request followed by
    execute requests only, no more of them than the first answer has
    invocations (none when the test request is rejected). *)
Lemma handleSendMessage_single_round (b : Backend) (st : PageState) :
  let log := snd (handleSendMessage postTest postExecuteTool b st) in
  log = []
  \/ exists sid req res execs,
       log = TestExchange sid req res :: execs
       /\ forallb isExecuteExchange execs = true
       /\ length execs
          <= match res with
             | inr result => length (TestMessageResponse.tool_calls result)
             | inl _ => 0
             end.
Proof.
  unfold handleSendMessage.
  destruct (negb (truthy (trim (inputMessage st)))
            || (length (selectedServerIds st) =? 0)%nat); [now left|].
  right.
  destruct (postTest b (primaryServerId st) (testRequest st))
    as [b1 [err|result]].
  - exists (primaryServerId st), (testRequest st), (inl err), [].
    simpl. auto.
  - destruct (TestMessageResponse.requires_tool_execution result
              && (0 <? length (TestMessageResponse.tool_calls result))%nat).
    + destruct (executeTools postExecuteTool st _ _ b1 _)
        as [[[b2 st3] log] thrown] eqn:Hrun.
      destruct (executeTools_run _ _ _ _ _ _ _ _ _ _ Hrun) as (Hshape & _).
      exists (primaryServerId st), (testRequest st), (inr result), log.
      assert (Hlen : length log <= length (TestMessageResponse.tool_calls result)).
      { apply Forall2_length in Hshape. rewrite length_take in Hshape. lia. }
      destruct thrown; simpl; repeat split; eauto using exchangeFor_execute.
    + exists (primaryServerId st), (testRequest st), (inr result), [].
      simpl. repeat split; auto. lia.
Qed.

(** The loop never reads [additional_tool_calls]: emptying the field in
    every execution answer changes neither the page nor the backend. *)
Lemma executeTools_forgetAdditional (st0 : PageState) (hist : list Json)
    (calls : list ToolCall) :
  forall (b : Backend) (st : PageState),
    fst (fst (executeTools (forgetAdditional postExecuteTool) st0 hist calls b st))
    = fst (fst (executeTools postExecuteTool st0 hist calls b st))
    /\ snd (executeTools (forgetAdditional postExecuteTool) st0 hist calls b st)
       = snd (executeTools postExecuteTool st0 hist calls b st).
Proof.
  induction calls as [|c rest IH]; intros b st; simpl; [auto|].
  unfold forgetAdditional at 1 3.
  destruct (postExecuteTool b (primaryServerId st0) (executeRequest st0 hist c))
    as [b1 [err|r]]; [auto|].
  change (finalMessage (withoutAdditional r)) with (finalMessage r).
  change (ToolExecutionResponse.conversation_history (withoutAdditional r))
    with (ToolExecutionResponse.conversation_history r).
  specialize (IH b1
    (pushMessage (finalMessage r)
       (setConversationHistory (ToolExecutionResponse.conversation_history r) st))).
  destruct (executeTools (forgetAdditional postExecuteTool) st0 hist rest b1 _)
    as [[[b2 st2] log2] thrown2].
  destruct (executeTools postExecuteTool st0 hist rest b1 _)
    as [[[b3 st3] log3] thrown3].
  simpl in *. destruct IH as [[= -> ->] ->]. auto.
Qed.

(** X1: [handleSendMessage] never reads [additional_tool_calls]: with the
    field emptied in every execution answer, the page state and the
    backend state it ends in are the same. *)
Lemma handleSendMessage_ignores_additional_tool_calls (b : Backend)
    (st : PageState) :
  fst (handleSendMessage postTest (forgetAdditional postExecuteTool) b st)
  = fst (handleSendMessage postTest postExecuteTool b st).
Proof.
  unfold handleSendMessage.
  destruct (negb (truthy (trim (inputMessage st)))
            || (length (selectedServerIds st) =? 0)%nat); [reflexivity|].
  destruct (postTest b (primaryServerId st) (testRequest st))
    as [b1 [err|result]]; [reflexivity|].
  destruct (TestMessageResponse.requires_tool_execution result
            && (0 <? length (TestMessageResponse.tool_calls result))%nat);
    [|reflexivity].
  match goal with
  | |- context [executeTools (forgetAdditional postExecuteTool) ?a ?h ?c ?b ?s] =>
      destruct (executeTools_forgetAdditional a h c b s) as [H1 H2];
      destruct (executeTools (forgetAdditional postExecuteTool) a h c b s)
        as [[[b2 st2] log2] thrown2];
      destruct (executeTools postExecuteTool a h c b s)
        as [[[b3 st3] log3] thrown3]
  end.
  simpl in *. injection H1 as -> ->. subst thrown3.
  destruct thrown2; reflexivity.
Qed.

End AITestingPageRounds.

(** C7 at its failing input, which is that of C2: the provider asks for
    [call1] and the answer to its execution asks for [call2].  The turn
    is over after the one round: one test request, one execute request,
    and [call2] still pending.  The transcript is, message for message,
    that of the run in which nothing is pending, so nothing on the page
    tells that the turn was cut short. *)
Theorem turn_stops_with_invocation_pending :
  let pending :=
    handleSendMessage (testAnswers (answerWithCalls [call1]))
      (executeAnswers (executionAnswer [call2])) tt sampleState in
  let final :=
    handleSendMessage (testAnswers (answerWithCalls [call1]))
      (executeAnswers (executionAnswer [])) tt sampleState in
  map isExecuteExchange (snd pending) = [false; true]
  /\ pendingAtEnd (snd pending) = [call2]
  /\ pendingAtEnd (snd final) = []
  /\ messages (snd (fst pending)) = messages (snd (fst final))
  /\ length (messages (snd (fst pending))) = 3.
Proof. repeat split; reflexivity. Qed.

(** C2 at its failing input: the provider asks for [call1]; the answer to
    its execution asks for [call2].  [call2] is pending when the handler
    returns; it was never sent for execution and no message lists it. *)
Theorem additional_tool_call_is_dropped :
  let run :=
    handleSendMessage (testAnswers (answerWithCalls [call1]))
      (executeAnswers (executionAnswer [call2])) tt sampleState in
  pendingAtEnd (snd run) = [call2]
  /\ dispatched (snd run) call2 = false
  /\ surfaced (messages (snd (fst run))) call2 = false
  /\ map isExecuteExchange (snd run) = [false; true].
Proof. repeat split; reflexivity. Qed.

(** ** The endpoint card: the default tool name *)

Lemma allString_app (p : ascii -> bool) (s1 s2 : string) :
  allString p (s1 +:+ s2) = allString p s1 && allString p s2.
Proof.
  induction s1 as [|c r IH]; simpl; [reflexivity|].
  now rewrite IH, andb_assoc.
Qed.

Lemma toLowerCase_app (s1 s2 : string) :
  toLowerCase (s1 +:+ s2) = toLowerCase s1 +:+ toLowerCase s2.
Proof.
  unfold toLowerCase. induction s1 as [|c r IH]; simpl; [reflexivity|].
  now rewrite IH.
Qed.

Lemma toLowerCaseUnit_letter (c : ascii) :
  isLetter c = true -> isLower (toLowerCaseUnit c) = true.
Proof. destruct c as [[] [] [] [] [] [] [] []]; vm_compute; auto. Qed.

Lemma toLowerCase_letters (s : string) :
  allString isLetter s = true -> allString isLower (toLowerCase s) = true.
Proof.
  unfold toLowerCase.
  induction s as [|c r IH]; simpl; [reflexivity|].
  intros H. apply andb_true_iff in H as [Hc Hr].
  now rewrite (toLowerCaseUnit_letter c Hc), (IH Hr).
Qed.

Lemma isLower_isIdentChar (s : string) :
  allString isLower s = true -> allString isIdentChar s = true.
Proof.
  induction s as [|c r IH]; simpl; [reflexivity|].
  intros H. apply andb_true_iff in H as [Hc Hr]. rewrite (IH Hr).
  unfold isIdentChar, isAlnum, isLetter. now rewrite Hc, orb_true_r.
Qed.

Lemma replaceNonAlnum_identChars (s : string) :
  allString isIdentChar (replaceNonAlnum s) = true.
Proof.
  unfold replaceNonAlnum.
  induction s as [|c r IH]; simpl; [reflexivity|].
  rewrite IH, andb_true_r. unfold isIdentChar.
  destruct (isAlnum c) eqn:E; [now rewrite E | reflexivity].
Qed.

Lemma replaceNonAlnum_length (s : string) :
  String.length (replaceNonAlnum s) = String.length s.
Proof.
  unfold replaceNonAlnum.
  induction s as [|c r IH]; simpl; [reflexivity | now rewrite IH].
Qed.

Lemma replaceNonAlnum_get (s : string) :
  forall i c,
    String.get i s = Some c ->
    String.get i (replaceNonAlnum s)
    = Some (if isAlnum c then c else "_"%char).
Proof.
  unfold replaceNonAlnum.
  induction s as [|c' r IH]; intros i c; simpl; [discriminate|].
  destruct i as [|i]; [intros [= ->]; reflexivity | apply IH].
Qed.

Lemma replaceNonAlnum_upper (s : string) :
  allString (fun c => negb (isUpper c)) (replaceNonAlnum s)
  = allString (fun c => negb (isUpper c)) s.
Proof.
  unfold replaceNonAlnum.
  induction s as [|c r IH]; simpl; [reflexivity|].
  rewrite IH. f_equal.
  destruct (isAlnum c) eqn:E; [reflexivity|].
  unfold isAlnum, isLetter in E.
  destruct (isUpper c); [discriminate | reflexivity].
Qed.

Lemma isLower_not_upper (s : string) :
  allString isLower s = true ->
  allString (fun c => negb (isUpper c)) s = true.
Proof.
  induction s as [|c r IH]; simpl; [reflexivity|].
  intros H. apply andb_true_iff in H as [Hc Hr]. rewrite (IH Hr), andb_true_r.
  revert Hc. destruct c as [[] [] [] [] [] [] [] []]; vm_compute; auto.
Qed.

(** X30: what the endpoint card announces in the tool-name input while no
    tool name is given (its placeholder): the lower-cased method, an
    underscore, and the path with every character other than an ASCII
    letter or digit replaced by an underscore, the letters of the path
    keeping their case.  For a method made of letters that text
    satisfies the identifier grammar, and it is free of upper-case
    letters exactly when the path is. *)
Lemma default_tool_name_shape (e : EndpointConfig.t) :
  truthy_opt (EndpointConfig.mcp_tool_name e) = false ->
  allString isLetter (EndpointConfig.http_method e) = true ->
  shownToolName e
  = toLowerCase (EndpointConfig.http_method e) +:+ "_"
      +:+ replaceNonAlnum (EndpointConfig.path e)
  /\ String.length (replaceNonAlnum (EndpointConfig.path e))
     = String.length (EndpointConfig.path e)
  /\ (forall i c,
        String.get i (EndpointConfig.path e) = Some c ->
        String.get i (replaceNonAlnum (EndpointConfig.path e))
        = Some (if isAlnum c then c else "_"%char))
  /\ isIdentifier (shownToolName e) = true
  /\ allString (fun c => negb (isUpper c)) (shownToolName e)
     = allString (fun c => negb (isUpper c)) (EndpointConfig.path e).
Proof.
  intros Hname Hmethod. unfold shownToolName. rewrite Hname.
  unfold defaultToolName.
  pose proof (toLowerCase_letters _ Hmethod) as Hlow.
  split; [reflexivity|].
  split; [apply replaceNonAlnum_length|].
  split; [apply replaceNonAlnum_get|].
  split.
  - destruct (toLowerCase (EndpointConfig.http_method e)) as [|c r] eqn:E.
    + simpl. apply replaceNonAlnum_identChars.
    + simpl in Hlow. apply andb_true_iff in Hlow as [Hc Hr].
      simpl. unfold isIdentStart, isLetter. rewrite Hc, orb_true_r. simpl.
      rewrite allString_app, (isLower_isIdentChar r Hr). simpl.
      apply replaceNonAlnum_identChars.
  - rewrite allString_app, (isLower_not_upper _ Hlow). simpl.
    apply replaceNonAlnum_upper.
Qed.

Lemma default_tool_name_sample :
  shownToolName endpointWithDescription = "get__Users__userId_"
  /\ isIdentifier (shownToolName endpointWithDescription) = true.
Proof.
  destruct (default_tool_name_shape endpointWithDescription eq_refl eq_refl)
    as (Hshape & _ & _ & Hident & _).
  split; [exact Hshape | exact Hident].
Defined.

(** ** The tool compiler: the default tool name *)

Lemma toLowerCaseUnit_no_upper (c : ascii) : isUpper (toLowerCaseUnit c) = false.
Proof. destruct c as [[] [] [] [] [] [] [] []]; vm_compute; reflexivity. Qed.

Lemma toLowerCase_no_upper (s : string) :
  allString (fun c => negb (isUpper c)) (toLowerCase s) = true.
Proof.
  unfold toLowerCase. induction s as [|c r IH]; simpl; [reflexivity|].
  now rewrite toLowerCaseUnit_no_upper, IH.
Qed.

Lemma toLowerCaseUnit_identChar (c : ascii) :
  isIdentChar c = true -> isIdentChar (toLowerCaseUnit c) = true.
Proof. destruct c as [[] [] [] [] [] [] [] []]; vm_compute; auto. Qed.

Lemma toLowerCase_identChars (s : string) :
  allString isIdentChar s = true -> allString isIdentChar (toLowerCase s) = true.
Proof.
  unfold toLowerCase. induction s as [|c r IH]; simpl; [reflexivity|].
  intros H. apply andb_true_iff in H as [Hc Hr].
  now rewrite (toLowerCaseUnit_identChar c Hc), (IH Hr).
Qed.

Lemma toLowerCase_sanitized (s : string) :
  toLowerCase (replaceNonAlnum s)
  = mapString (fun c => if isAlnum c then toLowerCaseUnit c else "_"%char) s.
Proof.
  unfold toLowerCase, replaceNonAlnum.
  induction s as [|c r IH]; simpl; [reflexivity|].
  rewrite IH. f_equal. now destruct (isAlnum c).
Qed.



(** ** The parameter card and the tool compiler *)

(** The mandatory checkbox writes [user_required]; every other field of
    the parameter, the flag of the OpenAPI document among them, stays. *)
Lemma setUserRequired_spec (checked : bool) (p : ParameterConfigItem.t) :
  ParameterConfigItem.user_required (setUserRequired checked p) = checked
  /\ ParameterConfigItem.required (setUserRequired checked p)
     = ParameterConfigItem.required p
  /\ ParameterConfigItem.name (setUserRequired checked p)
     = ParameterConfigItem.name p
  /\ ParameterConfigItem.type (setUserRequired checked p)
     = ParameterConfigItem.type p
  /\ ParameterConfigItem.location (setUserRequired checked p)
     = ParameterConfigItem.location p
  /\ ParameterConfigItem.description (setUserRequired checked p)
     = ParameterConfigItem.description p
  /\ ParameterConfigItem.deprecated (setUserRequired checked p)
     = ParameterConfigItem.deprecated p
  /\ ParameterConfigItem.schema (setUserRequired checked p)
     = ParameterConfigItem.schema p.
Proof. repeat split. Qed.

(** C3: in a compiled tool the [required] flag of every parameter, taken
    in the order of the descriptor, is the parameter's [user_required];
    the [required] flag of the OpenAPI document plays no part. *)
Theorem compiled_required_is_user_required (e : EndpointConfig.t)
    (t : ToolDefinition) :
  compile e = inr t ->
  map (fun entry => (fst entry, ce_required (snd entry))) (inputContract t)
  = map (fun p => (ParameterConfigItem.name p, ParameterConfigItem.user_required p))
      (parameters e).
Proof.
  unfold compile.
  destruct (descriptionMissing e); [discriminate|].
  destruct (existsb lacksDescription (parameters e)); [discriminate|].
  intros [= <-]. simpl. rewrite map_map. reflexivity.
Qed.

(** [limit] is optional in the document and mandatory by the user's
    choice: the compiled tool requires it. *)
Lemma compiled_required_sample :
  exists t,
    compile endpointWithDescription = inr t
    /\ map (fun entry => (fst entry, ce_required (snd entry))) (inputContract t)
       = [("userId", true); ("limit", true)]
    /\ ParameterConfigItem.required limitParameter = false.
Proof.
  eexists. split; [reflexivity|]. split; [|reflexivity].
  exact (compiled_required_is_user_required endpointWithDescription _ eq_refl).
Defined.

(** ** Selected endpoints need a description *)

Section EndpointSelectionPageFacts.

Context {Backend : Type}.
Variable postBatchUpdate :
  Backend -> list EndpointConfigBatchUpdate.t ->
  Backend * (ApiError + list EndpointConfigBatchUpdate.t).

Lemma filter_nonempty {A : Type} (p : A -> bool) (l : list A) (x : A) :
  In x l -> p x = true -> (0 <? length (List.filter p l))%nat = true.
Proof.
  intros Hin Hp. apply Nat.ltb_lt.
  assert (H : In x (List.filter p l)) by (apply filter_In; auto).
  destruct (List.filter p l); [destruct H | simpl; lia].
Qed.

(** C4 (as amended): a selected endpoint without a description cannot be
    compiled (ConfigurationError), and the check is made before that as
    well: when the configuration is saved, [handleSave] shows an alert,
    posts nothing and changes neither the backend nor [hasChanges]. *)
Theorem selected_needs_description (b : Backend) (specId : string)
    (localConfigs : list EndpointConfig.t) (hasChanges : bool)
    (e : EndpointConfig.t) :
  truthy specId = true ->
  In e localConfigs ->
  EndpointConfig.is_selected e = true ->
  truthy_opt (EndpointConfig.mcp_description e) = false ->
  compile e = inl ConfigurationError
  /\ handleSave postBatchUpdate b (Some specId) localConfigs hasChanges
     = (b, hasChanges,
        [Alert (missingDescriptionAlert
                  (List.filter descriptionMissing localConfigs))])
  /\ reachesBackend
       (snd (handleSave postBatchUpdate b (Some specId) localConfigs hasChanges))
     = false.
Proof.
  intros Hspec Hin Hsel Hdesc.
  assert (Hmiss : descriptionMissing e = true).
  { unfold descriptionMissing. now rewrite Hsel, Hdesc. }
  assert (Hsave : handleSave postBatchUpdate b (Some specId) localConfigs hasChanges
                  = (b, hasChanges,
                     [Alert (missingDescriptionAlert
                               (List.filter descriptionMissing localConfigs))])).
  { unfold handleSave. simpl truthy_opt. rewrite Hspec. simpl negb.
    now rewrite (filter_nonempty descriptionMissing localConfigs e Hin Hmiss). }
  split; [|split].
  - unfold compile. now rewrite Hmiss.
  - exact Hsave.
  - now rewrite Hsave.
Qed.

(** X4: when every selected endpoint has its description the save goes
    through: the check of [handleSave] is this one and no other. *)
Lemma handleSave_posts_when_described (b : Backend) (specId : string)
    (localConfigs : list EndpointConfig.t) (hasChanges : bool) :
  truthy specId = true ->
  forallb (fun c => negb (descriptionMissing c)) localConfigs = true ->
  reachesBackend
    (snd (handleSave postBatchUpdate b (Some specId) localConfigs hasChanges))
  = true.
Proof.
  intros Hspec Hall. unfold handleSave. simpl truthy_opt. rewrite Hspec. simpl negb.
  assert (Hnil : List.filter descriptionMissing localConfigs = []).
  { clear -Hall. induction localConfigs as [|c l IH]; [reflexivity|].
    simpl in *. apply andb_true_iff in Hall as [Hc Hl].
    apply negb_true_iff in Hc. rewrite Hc. auto. }
  rewrite Hnil. simpl.
  destruct (postBatchUpdate b (map toBatchUpdate localConfigs)) as [b1 [err|ok]];
    reflexivity.
Qed.

End EndpointSelectionPageFacts.

Lemma selected_needs_description_sample :
  compile endpointWithoutDescription = inl ConfigurationError
  /\ handleSave acceptsUpdates tt (Some "spec-1") [endpointWithoutDescription] true
     = (tt, true,
        [Alert (missingDescriptionAlert
                  (List.filter descriptionMissing [endpointWithoutDescription]))])
  /\ reachesBackend
       (snd (handleSave acceptsUpdates tt (Some "spec-1")
               [endpointWithoutDescription] true))
     = false.
Proof.
  apply (selected_needs_description acceptsUpdates tt "spec-1"
           [endpointWithoutDescription] true endpointWithoutDescription);
    [reflexivity | left; reflexivity | reflexivity | reflexivity].
Defined.

(** C4, as the specification states it, fails in its second half: the
    missing description is caught before compile time.  Saving a selected
    endpoint without description never reaches the backend, although the
    backend would accept the update. *)
Lemma description_checked_before_compile_time :
  reachesBackend
    (snd (handleSave acceptsUpdates tt (Some "spec-1")
            [endpointWithoutDescription] true))
  <> true.
Proof. vm_compute. discriminate. Qed.

(** ** The toolset composer *)

Lemma append_length (s1 s2 : string) :
  String.length (s1 +:+ s2) = String.length s1 + String.length s2.
Proof. induction s1 as [|c r IH]; simpl; [reflexivity | now rewrite IH]. Qed.

Lemma nameSuffix_length (serverId : string) :
  0 < String.length (nameSuffix serverId).
Proof. unfold nameSuffix. simpl. lia. Qed.

Lemma appended_length (k : nat) (suffix : string) :
  forall name,
    String.length (appended k suffix name)
    = String.length name + k * String.length suffix.
Proof.
  induction k as [|k IH]; intros name; simpl; [lia|].
  rewrite IH, append_length. lia.
Qed.

(** What the renaming rule returns: the name with the identifier
    appended some number of times, every shorter candidate being
    present. *)
Lemma freeName_shape (acc : gmap string (string * ToolDefinition))
    (suffix : string) (rounds : nat) :
  forall name,
    exists k,
      k <= rounds
      /\ freeName rounds acc suffix name = appended k suffix name
      /\ (forall j, j < k -> is_Some (acc !! appended j suffix name))
      /\ (is_Some (acc !! name) -> 0 < rounds -> 1 <= k).
Proof.
  induction rounds as [|rounds IH]; intros name; simpl.
  - exists 0. split; [lia|]. split; [reflexivity|].
    split; intros; lia.
  - destruct (bool_decide (is_Some (acc !! name))) eqn:E.
    + apply bool_decide_eq_true in E.
      destruct (IH (name +:+ suffix)) as (k & Hk & Hname & Hall & _).
      exists (S k). split; [lia|]. split; [exact Hname|].
      split; [|intros; lia].
      intros [|j] Hj; simpl; [exact E | apply Hall; lia].
    + apply bool_decide_eq_false in E.
      exists 0. split; [lia|]. split; [reflexivity|].
      split; [intros; lia|].
      intros Hpresent. contradiction.
Qed.

(** Enough rounds reach a name that is not present: every round that
    does not stop leaves behind one more name of the set, a shorter one
    than all the candidates to come. *)
Lemma freeName_free (acc : gmap string (string * ToolDefinition))
    (suffix : string) (rounds : nat) :
  0 < String.length suffix ->
  forall name,
    size (filter (fun k => String.length name <= String.length k) (dom acc))
    <= rounds ->
    acc !! freeName rounds acc suffix name = None.
Proof.
  intros Hsuffix. induction rounds as [|rounds IH]; intros name Hsize; simpl.
  - apply not_elem_of_dom. intros Hin.
    assert (Hmem : name ∈ filter (fun k => String.length name <= String.length k)
                            (dom acc))
      by (apply elem_of_filter; split; [lia | exact Hin]).
    assert (Hzero : size (filter (fun k => String.length name <= String.length k)
                            (dom acc)) = 0) by lia.
    apply size_empty_inv in Hzero. rewrite Hzero in Hmem.
    now apply not_elem_of_empty in Hmem.
  - destruct (bool_decide (is_Some (acc !! name))) eqn:E.
    + apply bool_decide_eq_true in E. apply IH.
      assert (Hin : name ∈ dom acc) by now apply elem_of_dom.
      assert (Hsub :
        filter (fun k => String.length (name +:+ suffix) <= String.length k) (dom acc)
        ⊂ filter (fun k => String.length name <= String.length k) (dom acc)).
      { split.
        - intros k Hk. apply elem_of_filter in Hk as [Hlen Hk].
          apply elem_of_filter. rewrite append_length in Hlen. split; [lia | exact Hk].
        - intros Hall.
          assert (Hmem : name ∈ filter (fun k => String.length name <= String.length k)
                                  (dom acc))
            by (apply elem_of_filter; split; [lia | exact Hin]).
          apply Hall, elem_of_filter in Hmem as [Hlen _].
          rewrite append_length in Hlen. lia. }
      apply subset_size in Hsub. lia.
    + apply bool_decide_eq_false in E. now apply eq_None_not_Some.
Qed.

(** The composer never stores a tool under a name that is present. *)
Lemma composedName_free (acc : gmap string (string * ToolDefinition))
    (serverId : string) (t : ToolDefinition) :
  acc !! composedName acc serverId t = None.
Proof.
  unfold composedName. apply freeName_free; [apply nameSuffix_length|].
  rewrite <- size_dom. apply subseteq_size.
  intros k Hk. now apply elem_of_filter in Hk as [_ Hk].
Qed.

Lemma present_size_pos (acc : gmap string (string * ToolDefinition)) (n : string) :
  is_Some (acc !! n) -> 0 < size acc.
Proof.
  intros [v Hv]. destruct (size acc) eqn:E; [|lia].
  apply map_size_empty_inv in E. rewrite E, lookup_empty in Hv. discriminate.
Qed.

Lemma placeTool_dom (sid : string) (acc : gmap string (string * ToolDefinition))
    (t : ToolDefinition) :
  dom (placeTool sid acc t) = {[composedName acc sid t]} ∪ dom acc.
Proof. unfold placeTool. apply dom_insert_L. Qed.

(** Placing a tool adds one entry and leaves the others as they were. *)
Lemma placeTool_size (sid : string) (acc : gmap string (string * ToolDefinition))
    (t : ToolDefinition) :
  size (placeTool sid acc t) = S (size acc).
Proof. unfold placeTool. apply map_size_insert_None, composedName_free. Qed.

Lemma placeTool_keeps (sid : string) (acc : gmap string (string * ToolDefinition))
    (t : ToolDefinition) (k : string) (v : string * ToolDefinition) :
  acc !! k = Some v -> placeTool sid acc t !! k = Some v.
Proof.
  intros Hk. unfold placeTool. rewrite lookup_insert_ne; [exact Hk|].
  intros Heq. rewrite <- Heq, composedName_free in Hk. discriminate.
Qed.

Lemma placeTools_dom (sid : string) (ts : list ToolDefinition) :
  forall acc : gmap string (string * ToolDefinition),
    dom (foldl (placeTool sid) acc ts)
    = dom acc ∪ list_to_set (namesOfTools sid acc ts).
Proof.
  induction ts as [|t rest IH]; intros acc; simpl.
  - set_solver.
  - rewrite IH, placeTool_dom. set_solver.
Qed.

Lemma placeServers_dom (servers : list DeployedServer) :
  forall acc : gmap string (string * ToolDefinition),
    dom (foldl placeServer acc servers)
    = dom acc ∪ list_to_set (namesFrom acc servers).
Proof.
  induction servers as [|s rest IH]; intros acc; simpl.
  - set_solver.
  - rewrite IH, list_to_set_app_L.
    assert (Hs : dom (placeServer acc s)
                 = dom acc ∪ list_to_set (namesOfTools (ds_id s) acc (tools s)))
      by apply placeTools_dom.
    rewrite Hs. set_solver.
Qed.

(** The names under which the composed toolset can be searched are the
    names the composer handed out. *)
Lemma composeServers_dom (servers : list DeployedServer) :
  dom (composeServers servers) = list_to_set (composedNames servers).
Proof.
  unfold composeServers, composedNames. rewrite placeServers_dom.
  rewrite dom_empty_L. set_solver.
Qed.

Lemma namesOfTools_length (sid : string) (ts : list ToolDefinition) :
  forall acc, length (namesOfTools sid acc ts) = length ts.
Proof. induction ts as [|t rest IH]; intros acc; simpl; auto. Qed.

(** One name is handed out per tool. *)
Lemma namesFrom_length (servers : list DeployedServer) :
  forall acc, length (namesFrom acc servers) = sumToolCounts servers.
Proof.
  induction servers as [|s rest IH]; intros acc; simpl; [reflexivity|].
  rewrite length_app, namesOfTools_length, IH. reflexivity.
Qed.

Lemma placeTools_size (sid : string) (ts : list ToolDefinition) :
  forall acc : gmap string (string * ToolDefinition),
    size (foldl (placeTool sid) acc ts) = size acc + length ts.
Proof.
  induction ts as [|t rest IH]; intros acc; simpl; [lia|].
  rewrite IH, placeTool_size. lia.
Qed.

Lemma placeServers_size (servers : list DeployedServer) :
  forall acc : gmap string (string * ToolDefinition),
    size (foldl placeServer acc servers) = size acc + sumToolCounts servers.
Proof.
  induction servers as [|s rest IH]; intros acc; simpl; [unfold sumToolCounts; simpl; lia|].
  rewrite IH. unfold placeServer at 1. rewrite placeTools_size.
  unfold sumToolCounts, toolCount. simpl. lia.
Qed.

Lemma size_list_to_set_le (l : list string) :
  size (list_to_set l : gset string) <= length l.
Proof.
  induction l as [|x l IH]; simpl.
  - change (size (∅ : gset string) <= 0). now rewrite size_empty.
  - rewrite size_union_alt.
    rewrite size_singleton.
    assert (size ((list_to_set l : gset string) ∖ {[x]}) <= size (list_to_set l : gset string))
      by (apply subseteq_size; set_solver).
    lia.
Qed.

Lemma size_list_to_set_NoDup (l : list string) :
  size (list_to_set l : gset string) = length l <-> NoDup l.
Proof.
  split; [|apply size_list_to_set].
  induction l as [|x l IH]; simpl; intros Hsize; [constructor|].
  pose proof (size_list_to_set_le l) as Hle.
  destruct (decide (x ∈ l)) as [Hin|Hnotin].
  - exfalso.
    assert (Heq : ({[x]} ∪ list_to_set l : gset string) = list_to_set l)
      by set_solver.
    rewrite Heq in Hsize. lia.
  - constructor; [exact Hnotin|]. apply IH.
    rewrite size_union in Hsize by set_solver.
    rewrite size_singleton in Hsize. lia.
Qed.

Lemma composeServers_size (servers : list DeployedServer) :
  size (composeServers servers) = sumToolCounts servers.
Proof.
  unfold composeServers. rewrite placeServers_size, map_size_empty. lia.
Qed.

(** The names the composer hands out are pairwise different. *)
Lemma composedNames_NoDup (servers : list DeployedServer) :
  NoDup (composedNames servers).
Proof.
  apply size_list_to_set_NoDup.
  rewrite <- composeServers_dom, size_dom, composeServers_size.
  symmetry. apply namesFrom_length.
Qed.



(** ** The server registry and the request synthesizer *)

Lemma updateBaseUrl_lookup (id url : string) (reg : gmap string DeployedServer)
    (j : string) :
  updateBaseUrl id url reg !! j
  = if decide (id = j) then withBaseUrl url <$> reg !! j else reg !! j.
Proof.
  unfold updateBaseUrl. rewrite lookup_alter.
  destruct (decide (id = j)) as [->|]; reflexivity.
Qed.

(** The servers a list of ids resolves to keep their ids, tools and
    activity when a base URL is updated. *)
Lemma resolveServers_updateBaseUrl (id url : string)
    (reg : gmap string DeployedServer) (ids : list string) :
  match resolveServers reg ids, resolveServers (updateBaseUrl id url reg) ids with
  | inl e, inl e' => e = e'
  | inr l, inr l' =>
      map (fun s => (ds_id s, tools s)) l = map (fun s => (ds_id s, tools s)) l'
  | _, _ => False
  end.
Proof.
  induction ids as [|i rest IH]; simpl; [reflexivity|].
  rewrite updateBaseUrl_lookup.
  destruct (decide (id = i)) as [->|Hne];
    destruct (reg !! i) as [s|]; simpl; try reflexivity;
    destruct (active s); try reflexivity;
    destruct (resolveServers reg rest) as [e|l],
             (resolveServers (updateBaseUrl _ url reg) rest) as [e'|l'];
    simpl in *; try contradiction; try congruence.
Qed.

Lemma composeServers_ext (l l' : list DeployedServer) :
  map (fun s => (ds_id s, tools s)) l = map (fun s => (ds_id s, tools s)) l' ->
  composeServers l = composeServers l'.
Proof.
  unfold composeServers. generalize (∅ : gmap string (string * ToolDefinition)).
  revert l'. induction l as [|s l IH]; intros [|s' l'] acc; simpl;
    try discriminate; [reflexivity|].
  intros [= Hid Htools Hrest]. unfold placeServer at 2 4.
  rewrite Hid, Htools. now apply IH.
Qed.

(** No recompilation: the composed toolset does not depend on base URLs. *)
Lemma compose_updateBaseUrl (id url : string)
    (reg : gmap string DeployedServer) (ids : list string) :
  compose (updateBaseUrl id url reg) ids = compose reg ids.
Proof.
  unfold compose.
  pose proof (resolveServers_updateBaseUrl id url reg ids) as H.
  destruct (resolveServers reg ids) as [e|l],
           (resolveServers (updateBaseUrl id url reg) ids) as [e'|l'];
    try contradiction.
  - now subst.
  - f_equal. symmetry. now apply composeServers_ext.
Qed.

Section RequestSynthesizerFacts.

Context {World : Type}.
Variable send : World -> HttpRequest -> World * HttpOutcome.
Variable synthesize : ToolDefinition -> Json -> CoreError + ResolvedCall.

(** The results of a session are those of its first part followed by
    those of the rest, run from where the first part ended. *)
Lemma runSession_app (toolset : gmap string (string * ToolDefinition))
    (ops1 ops2 : list Op) :
  forall reg w,
    runSession send synthesize toolset reg w (ops1 ++ ops2)
    = let r1 := runSession send synthesize toolset reg w ops1 in
      let r2 := runSession send synthesize toolset (fst (fst r1)) (snd (fst r1)) ops2 in
      (fst (fst r2), snd (fst r2), snd r1 ++ snd r2).
Proof.
  induction ops1 as [|op rest IH]; intros reg w; simpl.
  - now destruct (runSession send synthesize toolset reg w ops2) as [[? ?] ?].
  - destruct op as [name args|id url|id a]; simpl; try apply IH.
    destruct (execute send synthesize reg toolset w name args) as [[w1 res] sent].
    rewrite IH.
    destruct (runSession send synthesize toolset reg w1 rest) as [[reg2 w2] out].
    simpl.
    now destruct (runSession send synthesize toolset reg2 w2 ops2) as [[? ?] ?].
Qed.


End RequestSynthesizerFacts.


(** A white-space-only input with a server selected. *)
Lemma handleSendMessage_blank_sample :
  handleSendMessage (testAnswers (answerWithCalls [call1]))
    (executeAnswers (executionAnswer [])) tt blankState
  = (tt, blankState, []).
Proof.
  apply (handleSendMessage_blank_is_noop (testAnswers (answerWithCalls [call1]))
           (executeAnswers (executionAnswer [])) tt blankState).
  left. reflexivity.
Defined.

(** ** More on the composer: nothing is lost *)

Lemma placeTools_keep (sid : string) (ts : list ToolDefinition) :
  forall acc : gmap string (string * ToolDefinition),
    (forall k v, acc !! k = Some v -> foldl (placeTool sid) acc ts !! k = Some v)
    /\ Forall2
         (fun t n => foldl (placeTool sid) acc ts !! n = Some (sid, renamed n t))
         ts (namesOfTools sid acc ts).
Proof.
  induction ts as [|t rest IH]; intros acc; simpl.
  - split; [auto | constructor].
  - destruct (IH (placeTool sid acc t)) as [Hkeep Hall].
    split.
    + intros k v Hk. now apply Hkeep, placeTool_keeps.
    + constructor; [|exact Hall].
      apply Hkeep. unfold placeTool. apply lookup_insert_eq.
Qed.

Lemma placeServers_keep (servers : list DeployedServer) :
  forall acc : gmap string (string * ToolDefinition),
    (forall k v, acc !! k = Some v -> foldl placeServer acc servers !! k = Some v)
    /\ Forall2
         (fun item n =>
            foldl placeServer acc servers !! n
            = Some (fst item, renamed n (snd item)))
         (toolItems servers) (namesFrom acc servers).
Proof.
  induction servers as [|s rest IH]; intros acc; simpl.
  - split; [auto | constructor].
  - destruct (placeTools_keep (ds_id s) (tools s) acc) as [Hkeep1 Hall1].
    fold (placeServer acc s) in Hkeep1, Hall1.
    destruct (IH (placeServer acc s)) as [Hkeep2 Hall2].
    split.
    + intros k v Hk. apply Hkeep2, Hkeep1, Hk.
    + apply Forall2_app; [|exact Hall2].
      apply Forall2_fmap_l.
      eapply Forall2_impl; [exact Hall1|].
      intros t n Ht. simpl. apply Hkeep2, Ht.
Qed.

(** Every tool of every server is found in the composed toolset under
    the name it was given, with the id of its server. *)
Lemma composed_keeps_every_tool (servers : list DeployedServer) :
  Forall2
    (fun item n =>
       composeServers servers !! n = Some (fst item, renamed n (snd item)))
    (toolItems servers) (composedNames servers).
Proof. apply placeServers_keep. Qed.



(** ** The selection of the AI Sandbox *)

(** X3: a toggle keeps the selection free of repetitions. *)
Lemma handleToggleServer_NoDup (serverId : string) (prev : list string) :
  NoDup prev -> NoDup (handleToggleServer serverId prev).
Proof.
  intros Hnd. unfold handleToggleServer.
  destruct (bool_decide (serverId ∈ prev)) eqn:E.
  - now apply NoDup_filter.
  - apply bool_decide_eq_false in E.
    apply NoDup_app. repeat split; [exact Hnd | | apply NoDup_singleton].
    intros x Hx Hx'. apply list_elem_of_singleton in Hx'. now subst.
Qed.

Lemma handleToggleServer_sample :
  NoDup (handleToggleServer "srv-2" ["srv-1"])
  /\ handleToggleServer "srv-2" ["srv-1"] = ["srv-1"; "srv-2"]
  /\ handleToggleServer "srv-1" ["srv-1"; "srv-2"] = ["srv-2"].
Proof.
  split; [|split; reflexivity].
  apply (handleToggleServer_NoDup "srv-2" ["srv-1"]), NoDup_singleton.
Defined.

Lemma handleSave_posts_sample :
  reachesBackend
    (snd (handleSave acceptsUpdates tt (Some "spec-1") [endpointWithDescription] true))
  = true.
Proof.
  apply (handleSave_posts_when_described acceptsUpdates tt "spec-1"
           [endpointWithDescription] true); reflexivity.
Defined.

Section AITestingPageGuard.

Context {Backend : Type}.
Variable postTest :
  Backend -> string -> TestMessageRequest.t ->
  Backend * (ApiError + TestMessageResponse.t).
Variable postExecuteTool :
  Backend -> string -> ToolExecutionRequest.t ->
  Backend * (ApiError + ToolExecutionResponse.t).

(** X6: a request goes out exactly when the input has a character that
    is not white space and a server is selected; the first request is
    then the test request of the state, sent to the first selected
    server. *)
Lemma handleSendMessage_sends_iff (b : Backend) (st : PageState) :
  (whitespaceOnly (inputMessage st) = true \/ selectedServerIds st = []
   <-> snd (handleSendMessage postTest postExecuteTool b st) = [])
  /\ (snd (handleSendMessage postTest postExecuteTool b st) = []
      \/ exists res rest,
           snd (handleSendMessage postTest postExecuteTool b st)
           = TestExchange (primaryServerId st) (testRequest st) res :: rest).
Proof.
  pose proof (handleSendMessage_guard st) as Hguard.
  unfold handleSendMessage.
  destruct (negb (truthy (trim (inputMessage st)))
            || (length (selectedServerIds st) =? 0)%nat).
  - split; [|now left]. split; [reflexivity | intros _; now apply Hguard].
  - assert (Hnot : ~ (whitespaceOnly (inputMessage st) = true
                      \/ selectedServerIds st = []))
      by (intros H; apply Hguard in H; discriminate).
    destruct (postTest b (primaryServerId st) (testRequest st))
      as [b1 [err|result]].
    + split; [split; [contradiction | discriminate]|].
      right. eexists _, _. reflexivity.
    + destruct (TestMessageResponse.requires_tool_execution result
                && (0 <? length (TestMessageResponse.tool_calls result))%nat).
      * destruct (executeTools postExecuteTool st _ _ b1 _)
          as [[[b2 st3] log] [err|]];
          (split; [split; [contradiction | discriminate]|];
           right; eexists _, _; reflexivity).
      * split; [split; [contradiction | discriminate]|].
        right. eexists _, _. reflexivity.
Qed.

End AITestingPageGuard.

(** ** The file drop zone *)

Lemma endsWith_spec (s suffix : string) :
  endsWith s suffix = true <-> exists p, s = p +:+ suffix.
Proof.
  induction s as [|c r IH]; cbn [endsWith].
  - rewrite orb_false_r, String.eqb_eq. split.
    + intros <-. now exists "".
    + intros [p Hp]. destruct p; simpl in Hp; [exact Hp | discriminate].
  - rewrite orb_true_iff, String.eqb_eq, IH. split.
    + intros [<-|[p ->]]; [now exists "" | now exists (String c p)].
    + intros [p Hp]. destruct p as [|c' p]; simpl in Hp; [now left|].
      right. injection Hp as _ ->. now exists p.
Qed.

Lemma default_extensions :
  map (removeFirst "."%char) (validExtensions defaultAccept)
  = ["json"; "yaml"; "yml"].
Proof. reflexivity. Qed.

(** X7: with the default [accept] a file passes [validateFile] exactly
    when its size is within the limit (or the limit is 0, which switches
    the size check off) and its lower-cased name ends in [json], [yaml]
    or [yml]; the dot before the extension is not looked at. *)
Lemma validateFile_default_accepts (maxSize : Z) (file : File) :
  fst (validateFile defaultAccept maxSize file) = true
  <-> (maxSize = 0%Z \/ (file_size file <= maxSize)%Z)
      /\ exists p suffix,
           In suffix ["json"; "yaml"; "yml"]
           /\ toLowerCase (file_name file) = p +:+ suffix.
Proof.
  unfold validateFile.
  assert (Hext : hasValidExtension defaultAccept (toLowerCase (file_name file)) = true
                 <-> exists p suffix,
                       In suffix ["json"; "yaml"; "yml"]
                       /\ toLowerCase (file_name file) = p +:+ suffix).
  { unfold hasValidExtension. rewrite existsb_exists. split.
    - intros [ext [Hin Hend]]. apply endsWith_spec in Hend as [p Hp].
      exists p, (removeFirst "."%char ext). split; [|exact Hp].
      rewrite <- default_extensions. now apply in_map.
    - intros (p & suffix & Hin & Hp).
      rewrite <- default_extensions in Hin. apply in_map_iff in Hin as (ext & <- & Hin).
      exists ext. split; [exact Hin|]. apply endsWith_spec. now exists p. }
  destruct (Z.eqb_spec maxSize 0) as [->|Hne]; simpl.
  - destruct (hasValidExtension defaultAccept _); simpl.
    + split; [intros _; split; [now left | now apply Hext] | reflexivity].
    + split; [discriminate | intros [_ H]; now apply Hext in H].
  - destruct (Z.ltb_spec maxSize (file_size file)); simpl.
    + split; [discriminate | intros [[?|?] _]; [contradiction | lia]].
    + destruct (hasValidExtension defaultAccept _); simpl.
      * split; [intros _; split; [now right | now apply Hext] | reflexivity].
      * split; [discriminate | intros [_ H']; now apply Hext in H'].
Qed.

Lemma validateFile_accepted_clears (accept : string) (maxSize : Z) (file : File) :
  fst (validateFile accept maxSize file) = true ->
  snd (validateFile accept maxSize file) = None.
Proof.
  unfold validateFile.
  destruct (negb (maxSize =? 0)%Z && (maxSize <? file_size file)%Z);
    [discriminate|].
  destruct (negb (hasValidExtension accept (toLowerCase (file_name file))));
    [discriminate | reflexivity].
Qed.

(** X8: what a drop does.  Only the first file of the drop counts.  When
    it passes [validateFile] it becomes the selected file, [onFileSelect]
    is called once, with that file, and no error is shown.  When it does
    not pass, the selection stays, [onFileSelect] is not called and the
    error of the check is shown.  A drop without a file changes neither
    selection nor error.  The drag highlight is off afterwards in every
    case.  A pick through the file input does the same, except that it
    leaves the highlight as it is. *)
Lemma handleDrop_selects_valid_first_file (accept : string) (maxSize : Z)
    (files : list File) (st : FileUploadState) :
  let st' := fst (handleDrop accept maxSize files st) in
  let called := snd (handleDrop accept maxSize files st) in
  let picked := handleFileChange accept maxSize files st in
  dragActive st' = false
  /\ match files with
     | [] =>
         called = []
         /\ selectedFile st' = selectedFile st
         /\ uploadError st' = uploadError st
     | file :: _ =>
         if fst (validateFile accept maxSize file)
         then called = [file]
              /\ selectedFile st' = Some file
              /\ uploadError st' = None
         else called = []
              /\ selectedFile st' = selectedFile st
              /\ uploadError st' = snd (validateFile accept maxSize file)
              /\ uploadError st' <> None
     end
  /\ (called = [] \/ exists file, called = [file] /\ head files = Some file)
  /\ picked = (mkFileUploadState (dragActive st) (selectedFile st')
                (uploadError st'), called).
Proof.
  unfold handleDrop, handleFileChange.
  destruct files as [|file rest]; simpl; [destruct st; auto 10|].
  pose proof (validateFile_accepted_clears accept maxSize file) as Hnone.
  assert (Hsome : fst (validateFile accept maxSize file) = false ->
                  snd (validateFile accept maxSize file) <> None).
  { unfold validateFile.
    destruct (negb (maxSize =? 0)%Z && (maxSize <? file_size file)%Z);
      [discriminate|].
    destruct (negb (hasValidExtension accept (toLowerCase (file_name file))));
      discriminate. }
  destruct (validateFile accept maxSize file) as [[|] err]; simpl in *.
  - split; [reflexivity|]. split; [|split; [|reflexivity]].
    + split; [reflexivity|]. split; [reflexivity|]. now apply Hnone.
    + right. now exists file.
  - split; [reflexivity|]. split; [|split; [|reflexivity]].
    + split; [reflexivity|]. split; [reflexivity|]. split; [reflexivity|].
      now apply Hsome.
    + now left.
Qed.

(** Removing the dropped file gives back the empty drop zone. *)
Lemma handleRemove_after_drop (accept : string) (maxSize : Z)
    (files : list File) :
  handleRemove (fst (handleDrop accept maxSize files initialFileUpload))
  = initialFileUpload.
Proof.
  unfold handleDrop. destruct files as [|file rest]; [reflexivity|].
  destruct (validateFile accept maxSize file) as [[|] err]; reflexivity.
Qed.

(** ** The import dialog *)

Section SpecUploaderFacts.

Context {Backend : Type}.
Variable mutateAsync : Backend -> SpecUploader.Request -> Backend * bool.
Variable projectId : string.

Lemma tryImport_effects (isUploading : bool) (label : string)
    (r : SpecUploader.Request) (b : Backend) (st : SpecUploader.State) :
  exists rest,
    snd (SpecUploader.tryImport mutateAsync isUploading label r b st)
    = SpecUploader.Mutate r :: rest.
Proof.
  unfold SpecUploader.tryImport, SpecUploader.handleClose.
  destruct (mutateAsync b r) as [b1 [|]]; destruct isUploading; simpl; eauto.
Qed.

(** X9: [handleSubmit] sends a request exactly when [canSubmit] holds
    (the condition that enables the Import button); otherwise it does
    nothing at all, also on a tab it does not know.  The request is the
    one of the open tab, built from that tab's input: the chosen file,
    the non-empty URL, or the non-empty pasted text with its format. *)
Lemma handleSubmit_sends_iff_canSubmit (isUploading : bool) (b : Backend)
    (st : SpecUploader.State) :
  let run := SpecUploader.handleSubmit mutateAsync projectId isUploading b st in
  (SpecUploader.canSubmit st = false <-> run = (b, st, []))
  /\ (SpecUploader.canSubmit st = true
      <-> exists r rest,
            snd run = SpecUploader.Mutate r :: rest
            /\ ((exists file,
                   SpecUploader.selectedTab st = "file"
                   /\ SpecUploader.selectedFile st = Some file
                   /\ r = SpecUploader.UploadFile projectId file)
                \/ (SpecUploader.selectedTab st = "url"
                    /\ SpecUploader.url st <> ""
                    /\ r = SpecUploader.FromURL projectId (SpecUploader.url st))
                \/ (SpecUploader.selectedTab st = "paste"
                    /\ SpecUploader.content st <> ""
                    /\ r = SpecUploader.FromContent projectId
                           (SpecUploader.content st)
                           (SpecUploader.contentFormat st)))).
Proof.
  unfold SpecUploader.handleSubmit, SpecUploader.canSubmit,
    SpecUploader.handleFileUpload, SpecUploader.handleURLSubmit,
    SpecUploader.handleContentSubmit, truthy.
  destruct (String.eqb_spec (SpecUploader.selectedTab st) "file") as [Hfile|Hfile].
  { destruct (SpecUploader.selectedFile st) as [file|] eqn:Hsel; simpl.
    - destruct (tryImport_effects isUploading "Upload failed:"
                  (SpecUploader.UploadFile projectId file) b st) as [rest Hrest].
      split; split; try discriminate.
      + intros H. rewrite H in Hrest. discriminate.
      + intros _. exists (SpecUploader.UploadFile projectId file), rest.
        split; [exact Hrest|]. left. now exists file.
      + reflexivity.
    - split; split; try discriminate; try reflexivity.
      intros (r & rest & H & _). discriminate. }
  destruct (String.eqb_spec (SpecUploader.selectedTab st) "url") as [Hurl|Hurl].
  { destruct (String.eqb_spec (SpecUploader.url st) "") as [He|He]; simpl.
    - split; split; try discriminate; try reflexivity.
      intros (r & rest & H & _). discriminate.
    - destruct (tryImport_effects isUploading "Failed to fetch from URL:"
                  (SpecUploader.FromURL projectId (SpecUploader.url st)) b st)
        as [rest Hrest].
      split; split; try discriminate.
      + intros H. rewrite H in Hrest. discriminate.
      + intros _. eexists _, rest. split; [exact Hrest|]. right. left. auto.
      + reflexivity. }
  destruct (String.eqb_spec (SpecUploader.selectedTab st) "paste") as [Hpaste|Hpaste].
  { destruct (String.eqb_spec (SpecUploader.content st) "") as [He|He]; simpl.
    - split; split; try discriminate; try reflexivity.
      intros (r & rest & H & _). discriminate.
    - destruct (tryImport_effects isUploading "Failed to create from content:"
                  (SpecUploader.FromContent projectId (SpecUploader.content st)
                     (SpecUploader.contentFormat st)) b st)
        as [rest Hrest].
      split; split; try discriminate.
      + intros H. rewrite H in Hrest. discriminate.
      + intros _. eexists _, rest. split; [exact Hrest|]. right. right. auto.
      + reflexivity. }
  simpl. split; split; try discriminate; try reflexivity.
  intros (r & rest & H & _). discriminate.
Qed.

(** X10: a submit from the enabled button ([isUploading] false) ends in
    one of two ways.  Accepted: [onSuccess] is called, the dialog closes,
    and file, URL, pasted text and tab are back at their defaults (the
    chosen format stays).  Rejected: the dialog stays open with every
    input as it was.  Nothing is cleared without closing. *)
Lemma handleSubmit_clears_only_on_success (b : Backend)
    (st : SpecUploader.State) :
  let run := SpecUploader.handleSubmit mutateAsync projectId false b st in
  let st' := snd (fst run) in
  let effects := snd run in
  (In (SpecUploader.OnOpenChange false) effects
   /\ In SpecUploader.OnSuccess effects
   /\ st' = SpecUploader.mkState "file" None "" "" (SpecUploader.contentFormat st))
  \/ (~ In (SpecUploader.OnOpenChange false) effects
      /\ ~ In SpecUploader.OnSuccess effects
      /\ st' = st).
Proof.
  assert (Htry : forall label r,
    let run := SpecUploader.tryImport mutateAsync false label r b st in
    (In (SpecUploader.OnOpenChange false) (snd run)
     /\ In SpecUploader.OnSuccess (snd run)
     /\ snd (fst run)
        = SpecUploader.mkState "file" None "" "" (SpecUploader.contentFormat st))
    \/ (~ In (SpecUploader.OnOpenChange false) (snd run)
        /\ ~ In SpecUploader.OnSuccess (snd run)
        /\ snd (fst run) = st)).
  { intros label r. unfold SpecUploader.tryImport.
    destruct (mutateAsync b r) as [b1 [|]]; simpl.
    - left. auto.
    - right. repeat split; try reflexivity;
        intros [H|[H|[]]]; discriminate. }
  assert (Hnothing :
    (~ In (SpecUploader.OnOpenChange false) (@nil SpecUploader.Effect)
     /\ ~ In SpecUploader.OnSuccess (@nil SpecUploader.Effect)
     /\ st = st)) by (repeat split; intros []).
  unfold SpecUploader.handleSubmit, SpecUploader.handleFileUpload,
    SpecUploader.handleURLSubmit, SpecUploader.handleContentSubmit.
  destruct (String.eqb (SpecUploader.selectedTab st) "file").
  { destruct (SpecUploader.selectedFile st); [apply Htry | now right]. }
  destruct (String.eqb (SpecUploader.selectedTab st) "url").
  { destruct (truthy (SpecUploader.url st)); [apply Htry | now right]. }
  destruct (String.eqb (SpecUploader.selectedTab st) "paste").
  { destruct (truthy (SpecUploader.content st)); [apply Htry | now right]. }
  now right.
Qed.

(** X11: the remove button of the drop zone empties the drop zone but
    not the dialog: after a valid file is dropped and removed again, the
    drop zone shows no file, while the dialog still holds it, the Import
    button is enabled and a submit uploads that file. *)
Lemma removed_file_is_still_submitted (isUploading : bool) (b : Backend)
    (file : File) (others : list File)
    (Hvalid : fst (validateFile defaultAccept defaultMaxSize file) = true) :
  let st :=
    SpecUploader.removeInDialog
      (SpecUploader.dropInDialog (file :: others)
         (initialFileUpload, SpecUploader.initial)) in
  fst st = initialFileUpload
  /\ SpecUploader.canSubmit (snd st) = true
  /\ exists rest,
       snd (SpecUploader.handleSubmit mutateAsync projectId isUploading b (snd st))
       = SpecUploader.Mutate (SpecUploader.UploadFile projectId file) :: rest.
Proof.
  unfold SpecUploader.removeInDialog, SpecUploader.dropInDialog, handleDrop.
  cbn [fst snd].
  destruct (validateFile defaultAccept defaultMaxSize file) as [[|] err];
    [|discriminate].
  cbn. split; [reflexivity|]. split; [reflexivity|].
  apply tryImport_effects.
Qed.

End SpecUploaderFacts.

Lemma removed_file_sample :
  fst (validateFile defaultAccept defaultMaxSize (mkFile "petstore.yaml" 2048)) = true
  /\ exists rest,
       snd (SpecUploader.handleSubmit (fun (b : unit) _ => (b, true)) "p1" false tt
              (snd (SpecUploader.removeInDialog
                      (SpecUploader.dropInDialog [mkFile "petstore.yaml" 2048]
                         (initialFileUpload, SpecUploader.initial)))))
       = SpecUploader.Mutate (SpecUploader.UploadFile "p1" (mkFile "petstore.yaml" 2048))
           :: rest.
Proof.
  split; [reflexivity|].
  apply (removed_file_is_still_submitted (fun (b : unit) _ => (b, true)) "p1"
           false tt (mkFile "petstore.yaml" 2048) []).
  reflexivity.
Defined.

(** ** Searching the deployed servers *)

Lemma filter_sublist_of_filter {A : Type} (f g : A -> bool) (l : list A) :
  (forall x, f x = true -> g x = true) ->
  sublist (List.filter f l) (List.filter g l).
Proof.
  intros Hfg. induction l as [|x l IH]; simpl; [constructor|].
  destruct (f x) eqn:Hf.
  - rewrite (Hfg x Hf). now constructor.
  - destruct (g x); [now constructor | exact IH].
Qed.

Lemma filter_all {A : Type} (f : A -> bool) (l : list A) :
  (forall x, f x = true) -> List.filter f l = l.
Proof.
  intros Hf. induction l as [|x l IH]; simpl; [reflexivity|].
  now rewrite Hf, IH.
Qed.

(** X12: the two search boxes over the deployed servers.  A blank query
    (empty or white space only) shows every server on both pages.  For
    every query each page shows a sub-list of the servers in their
    order, and what the AI Sandbox shows, the Deployment page shows too
    (it also searches the base URL). *)
Lemma search_sandbox_within_deployment (searchQuery : string)
    (allServers : list ServerRow) :
  (whitespaceOnly searchQuery = true ->
   sandboxServers searchQuery allServers = allServers
   /\ deploymentServers searchQuery allServers = allServers)
  /\ sublist (sandboxServers searchQuery allServers)
       (deploymentServers searchQuery allServers)
  /\ sublist (deploymentServers searchQuery allServers) allServers.
Proof.
  unfold sandboxServers, deploymentServers, truthy.
  split; [|split].
  - intros Hblank. apply trim_whitespaceOnly in Hblank. rewrite Hblank. simpl.
    split; [now apply filter_all | reflexivity].
  - destruct (String.eqb (trim searchQuery) ""); simpl.
    + rewrite filter_all; [reflexivity | reflexivity].
    + apply filter_sublist_of_filter. intros x Hx.
      now rewrite Hx.
  - destruct (String.eqb (trim searchQuery) ""); simpl; [reflexivity|].
    rewrite <- (filter_all (fun _ => true) allServers) at 2 by reflexivity.
    now apply filter_sublist_of_filter.
Qed.

(** ** Starting and stopping deployed servers *)

(** After an accepted undeploy or delete the one query the page holds is
    fetched again, once. *)
Lemma invalidations_refetch_deployed_servers (serverId : string) :
  flat_map DeployedMCPsPage.invalidateQueries
    (DeployedMCPsPage.undeployInvalidates serverId)
  = [DeployedMCPsPage.GetDeployedServers]
  /\ flat_map DeployedMCPsPage.invalidateQueries
       (DeployedMCPsPage.deleteInvalidates serverId)
     = [DeployedMCPsPage.GetDeployedServers].
Proof. split; reflexivity. Qed.

Section DeployedMCPsPageFacts.

Context {World : Type}.
Variable confirm : World -> string -> World * bool.
Variable call : World -> DeployedMCPsPage.Call -> World * bool.

(** X13: stopping and deleting ask first.  When the user declines,
    nothing is sent and nothing is announced.  When the user agrees, the
    undeploy, respectively the delete, of that server is sent; when it
    is accepted the list of deployed servers is fetched again (the
    hook's invalidation), and nothing else is sent.  Exactly one alert
    follows: the success alert when the request was accepted, whatever
    the fetch answers, and the failure alert when it was rejected. *)
Lemma stop_and_delete_need_confirmation (serverId serverName : string)
    (w : World) :
  let stop := snd (DeployedMCPsPage.handleStop confirm call serverId serverName w) in
  let del := snd (DeployedMCPsPage.handleDelete confirm call serverId serverName w) in
  let askedStop := confirm w (DeployedMCPsPage.stopQuestion serverName) in
  let askedDelete := confirm w (DeployedMCPsPage.deleteQuestion serverName) in
  let stopped := snd (call (fst askedStop) (DeployedMCPsPage.Undeploy serverId)) in
  let deleted := snd (call (fst askedDelete) (DeployedMCPsPage.Delete serverId)) in
  map fst (DeployedMCPsPage.requests stop)
  = (if snd askedStop
     then DeployedMCPsPage.Undeploy serverId
            :: (if stopped then [DeployedMCPsPage.GetDeployedServers] else [])
     else [])
  /\ DeployedMCPsPage.alerts stop
     = (if snd askedStop
        then [if stopped then "MCP server stopped successfully"
              else "Failed to stop MCP server. Please try again."]
        else [])
  /\ (In (DeployedMCPsPage.Undeploy serverId, true) (DeployedMCPsPage.requests stop)
      <-> snd askedStop = true /\ stopped = true)
  /\ map fst (DeployedMCPsPage.requests del)
     = (if snd askedDelete
        then DeployedMCPsPage.Delete serverId
               :: (if deleted then [DeployedMCPsPage.GetDeployedServers] else [])
        else [])
  /\ DeployedMCPsPage.alerts del
     = (if snd askedDelete
        then [if deleted then "MCP server deleted successfully"
              else "Failed to delete MCP server. Please try again."]
        else [])
  /\ (In (DeployedMCPsPage.Delete serverId, true) (DeployedMCPsPage.requests del)
      <-> snd askedDelete = true /\ deleted = true).
Proof.
  unfold DeployedMCPsPage.handleStop, DeployedMCPsPage.handleDelete,
    DeployedMCPsPage.mutateAsync.
  split; [|split; [|split; [|split; [|split]]]].
  - destruct (confirm w (DeployedMCPsPage.stopQuestion serverName)) as [w1 [|]];
      cbn [fst snd]; [|reflexivity].
    destruct (call w1 (DeployedMCPsPage.Undeploy serverId)) as [w2 [|]]; cbn;
      [|reflexivity].
    now destruct (call w2 DeployedMCPsPage.GetDeployedServers) as [w3 ok].
  - destruct (confirm w (DeployedMCPsPage.stopQuestion serverName)) as [w1 [|]];
      cbn [fst snd]; [|reflexivity].
    destruct (call w1 (DeployedMCPsPage.Undeploy serverId)) as [w2 [|]]; cbn;
      [|reflexivity].
    now destruct (call w2 DeployedMCPsPage.GetDeployedServers) as [w3 ok].
  - destruct (confirm w (DeployedMCPsPage.stopQuestion serverName)) as [w1 [|]];
      cbn [fst snd]; [|split; [intros [] | intros [H _]; discriminate H]].
    destruct (call w1 (DeployedMCPsPage.Undeploy serverId)) as [w2 [|]]; cbn.
    + destruct (call w2 DeployedMCPsPage.GetDeployedServers) as [w3 ok]; cbn.
      split; [auto | intros _; now left].
    + split; [intros [H|[]]; discriminate H | intros [_ H]; discriminate H].
  - destruct (confirm w (DeployedMCPsPage.deleteQuestion serverName)) as [w1 [|]];
      cbn [fst snd]; [|reflexivity].
    destruct (call w1 (DeployedMCPsPage.Delete serverId)) as [w2 [|]]; cbn;
      [|reflexivity].
    now destruct (call w2 DeployedMCPsPage.GetDeployedServers) as [w3 ok].
  - destruct (confirm w (DeployedMCPsPage.deleteQuestion serverName)) as [w1 [|]];
      cbn [fst snd]; [|reflexivity].
    destruct (call w1 (DeployedMCPsPage.Delete serverId)) as [w2 [|]]; cbn;
      [|reflexivity].
    now destruct (call w2 DeployedMCPsPage.GetDeployedServers) as [w3 ok].
  - destruct (confirm w (DeployedMCPsPage.deleteQuestion serverName)) as [w1 [|]];
      cbn [fst snd]; [|split; [intros [] | intros [H _]; discriminate H]].
    destruct (call w1 (DeployedMCPsPage.Delete serverId)) as [w2 [|]]; cbn.
    + destruct (call w2 DeployedMCPsPage.GetDeployedServers) as [w3 ok]; cbn.
      split; [auto | intros _; now left].
    + split; [intros [H|[]]; discriminate H | intros [_ H]; discriminate H].
Qed.

(** X14: a restart undeploys first; when the undeploy is accepted the
    list of deployed servers is fetched again (the hook's invalidation),
    the deploy follows after the pause, and when that is accepted the
    list is fetched once more.  A rejected undeploy or deploy is the
    last request of the run: nothing is retried and nothing is sent
    after it.  Exactly one alert closes the run, and it announces success
    exactly when undeploy and deploy were both accepted: what the two
    fetches answer plays no part.  A start is the same without the
    undeploy. *)
Lemma handleRestart_order (serverId serverName : string) (w : World) :
  let effects := snd (DeployedMCPsPage.handleRestart call serverId serverName w) in
  let starting := snd (DeployedMCPsPage.handleStart call serverId serverName w) in
  let sent := DeployedMCPsPage.requests effects in
  let sentStarting := DeployedMCPsPage.requests starting in
  map fst sent
    `prefix_of` [DeployedMCPsPage.Undeploy serverId;
                 DeployedMCPsPage.GetDeployedServers;
                 DeployedMCPsPage.Deploy serverId;
                 DeployedMCPsPage.GetDeployedServers]
  /\ (In (DeployedMCPsPage.Undeploy serverId, false) sent ->
      sent = [(DeployedMCPsPage.Undeploy serverId, false)])
  /\ (In (DeployedMCPsPage.Deploy serverId, false) sent ->
      last sent = Some (DeployedMCPsPage.Deploy serverId, false))
  /\ (In (DeployedMCPsPage.Deploy serverId) (map fst sent)
      <-> In (DeployedMCPsPage.Undeploy serverId, true) sent)
  /\ (exists text,
        DeployedMCPsPage.alerts effects = [text]
        /\ last effects = Some (DeployedMCPsPage.Alert text)
        /\ (text = "MCP server restarted successfully"
            <-> In (DeployedMCPsPage.Undeploy serverId, true) sent
                /\ In (DeployedMCPsPage.Deploy serverId, true) sent)
        /\ (text = "MCP server restarted successfully" ->
            map fst sent
            = [DeployedMCPsPage.Undeploy serverId;
               DeployedMCPsPage.GetDeployedServers;
               DeployedMCPsPage.Deploy serverId;
               DeployedMCPsPage.GetDeployedServers]))
  /\ map fst sentStarting
       `prefix_of` [DeployedMCPsPage.Deploy serverId;
                    DeployedMCPsPage.GetDeployedServers]
  /\ (exists text,
        DeployedMCPsPage.alerts starting = [text]
        /\ last starting = Some (DeployedMCPsPage.Alert text)
        /\ (text = "MCP server started successfully"
            <-> In (DeployedMCPsPage.Deploy serverId, true) sentStarting)
        /\ (text = "MCP server started successfully" ->
            map fst sentStarting
            = [DeployedMCPsPage.Deploy serverId;
               DeployedMCPsPage.GetDeployedServers])).
Proof.
  unfold DeployedMCPsPage.handleRestart, DeployedMCPsPage.handleStart,
    DeployedMCPsPage.mutateAsync, DeployedMCPsPage.refetch.
  split; [|split; [|split; [|split; [|split; [|split]]]]].
  - destruct (call w (DeployedMCPsPage.Undeploy serverId)) as [w1 [|]]; cbn.
    + destruct (call w1 DeployedMCPsPage.GetDeployedServers) as [w2 ok]; cbn.
      destruct (call w2 (DeployedMCPsPage.Deploy serverId)) as [w3 [|]]; cbn.
      * destruct (call w3 DeployedMCPsPage.GetDeployedServers) as [w4 ok']; cbn.
        reflexivity.
      * now exists [DeployedMCPsPage.GetDeployedServers].
    + now exists [DeployedMCPsPage.GetDeployedServers;
                  DeployedMCPsPage.Deploy serverId;
                  DeployedMCPsPage.GetDeployedServers].
  - destruct (call w (DeployedMCPsPage.Undeploy serverId)) as [w1 [|]]; cbn.
    + destruct (call w1 DeployedMCPsPage.GetDeployedServers) as [w2 ok]; cbn.
      destruct (call w2 (DeployedMCPsPage.Deploy serverId)) as [w3 [|]]; cbn.
      * destruct (call w3 DeployedMCPsPage.GetDeployedServers) as [w4 ok']; cbn.
        intros [H|[H|[H|[H|[]]]]]; discriminate H.
      * intros [H|[H|[H|[]]]]; discriminate H.
    + reflexivity.
  - destruct (call w (DeployedMCPsPage.Undeploy serverId)) as [w1 [|]]; cbn.
    + destruct (call w1 DeployedMCPsPage.GetDeployedServers) as [w2 ok]; cbn.
      destruct (call w2 (DeployedMCPsPage.Deploy serverId)) as [w3 [|]]; cbn.
      * destruct (call w3 DeployedMCPsPage.GetDeployedServers) as [w4 ok']; cbn.
        intros [H|[H|[H|[H|[]]]]]; discriminate H.
      * reflexivity.
    + intros [H|[]]; discriminate H.
  - destruct (call w (DeployedMCPsPage.Undeploy serverId)) as [w1 [|]]; cbn.
    + destruct (call w1 DeployedMCPsPage.GetDeployedServers) as [w2 ok]; cbn.
      destruct (call w2 (DeployedMCPsPage.Deploy serverId)) as [w3 [|]]; cbn.
      * destruct (call w3 DeployedMCPsPage.GetDeployedServers) as [w4 ok']; cbn.
        split; auto.
      * split; auto.
    + split; [intros [H|[]]; discriminate H | intros [H|[]]; discriminate H].
  - destruct (call w (DeployedMCPsPage.Undeploy serverId)) as [w1 [|]]; cbn.
    + destruct (call w1 DeployedMCPsPage.GetDeployedServers) as [w2 ok]; cbn.
      destruct (call w2 (DeployedMCPsPage.Deploy serverId)) as [w3 [|]]; cbn.
      * destruct (call w3 DeployedMCPsPage.GetDeployedServers) as [w4 ok']; cbn.
        eexists. split; [reflexivity|]. split; [reflexivity|].
        split; [|reflexivity]. split; [auto 10 | reflexivity].
      * eexists. split; [reflexivity|]. split; [reflexivity|].
        split; [|discriminate]. split; [discriminate|].
        intros [_ [H|[H|[H|[]]]]]; discriminate H.
    + eexists. split; [reflexivity|]. split; [reflexivity|].
      split; [|discriminate]. split; [discriminate|].
      intros [[H|[]] _]; discriminate H.
  - destruct (call w (DeployedMCPsPage.Deploy serverId)) as [w1 [|]]; cbn.
    + destruct (call w1 DeployedMCPsPage.GetDeployedServers) as [w2 ok]; cbn.
      reflexivity.
    + now exists [DeployedMCPsPage.GetDeployedServers].
  - destruct (call w (DeployedMCPsPage.Deploy serverId)) as [w1 [|]]; cbn.
    + destruct (call w1 DeployedMCPsPage.GetDeployedServers) as [w2 ok]; cbn.
      eexists. split; [reflexivity|]. split; [reflexivity|].
      split; [|reflexivity]. split; [auto | reflexivity].
    + eexists. split; [reflexivity|]. split; [reflexivity|].
      split; [|discriminate]. split; [discriminate|].
      intros [H|[]]; discriminate H.
Qed.

End DeployedMCPsPageFacts.

(** ** The endpoint card and the configuration page *)

Section ReplaceByKey.

Context {A : Type}.
Variable key : A -> string.

Lemma replaceByKey_key (u x : A) : key (replaceByKey key u x) = key x.
Proof.
  unfold replaceByKey. destruct (String.eqb_spec (key x) (key u)); congruence.
Qed.

Lemma replaceByKey_keys (u : A) (l : list A) :
  map key (map (replaceByKey key u) l) = map key l.
Proof.
  induction l as [|x l IH]; simpl; [reflexivity|].
  now rewrite replaceByKey_key, IH.
Qed.

Lemma replaceByKey_absent (u : A) (l : list A) :
  ~ In (key u) (map key l) -> map (replaceByKey key u) l = l.
Proof.
  induction l as [|x l IH]; simpl; [reflexivity|].
  intros Hnot. unfold replaceByKey at 1.
  destruct (String.eqb_spec (key x) (key u)) as [He|He]; [tauto|].
  rewrite IH; [reflexivity | tauto].
Qed.

Lemma replaceByKey_same (u : A) (l : list A) (q : A) :
  In q (map (replaceByKey key u) l) -> key q = key u -> q = u.
Proof.
  intros Hin Hq. apply in_map_iff in Hin as (x & <- & _).
  unfold replaceByKey in *.
  destruct (String.eqb_spec (key x) (key u)); [reflexivity | contradiction].
Qed.

Lemma replaceByKey_insert (u : A) (l : list A) :
  NoDup (map key l) ->
  forall (i : nat) (p : A),
    l !! i = Some p -> key u = key p ->
    map (replaceByKey key u) l = <[i := u]> l.
Proof.
  induction l as [|x l IH]; intros Hnd i p Hi Hkey; [discriminate|].
  apply NoDup_cons in Hnd as [Hx Hnd].
  destruct i as [|i]; simpl in *.
  - injection Hi as ->. unfold replaceByKey at 1.
    rewrite Hkey, String.eqb_refl. f_equal.
    apply replaceByKey_absent. rewrite Hkey.
    intros Hin. apply Hx. now apply list_elem_of_In.
  - unfold replaceByKey at 1.
    destruct (String.eqb_spec (key x) (key u)) as [He|He].
    + exfalso. apply Hx. rewrite He, Hkey. apply list_elem_of_In.
      apply in_map. apply list_elem_of_In. now apply list_elem_of_lookup_2 in Hi.
    + f_equal. now apply (IH Hnd i p).
Qed.

End ReplaceByKey.

Lemma withParameters_same (e : EndpointConfig.t) :
  withParameters (EndpointConfig.parameter_configurations e) e = e.
Proof. now destruct e. Qed.

(** X15: a change of one parameter reaches the endpoint with the list of
    parameters in the same order and with the same names, an absent list
    staying absent, and with every other field of the endpoint as it
    was.  Afterwards every parameter that bears the name of the changed
    one is the changed one: a second parameter of that name, in another
    location, is overwritten with it. *)
Lemma handleParameterChange_keeps_names (updatedParam : ParameterConfigItem.t)
    (endpoint : EndpointConfig.t) :
  let after := handleParameterChange updatedParam endpoint in
  option_map (map ParameterConfigItem.name)
    (EndpointConfig.parameter_configurations after)
  = option_map (map ParameterConfigItem.name)
      (EndpointConfig.parameter_configurations endpoint)
  /\ withParameters (EndpointConfig.parameter_configurations endpoint) after
     = endpoint
  /\ forall params q,
       EndpointConfig.parameter_configurations after = Some params ->
       In q params ->
       ParameterConfigItem.name q = ParameterConfigItem.name updatedParam ->
       q = updatedParam.
Proof.
  unfold handleParameterChange. simpl. split; [|split].
  - destruct (EndpointConfig.parameter_configurations endpoint) as [ps|];
      simpl; [|reflexivity].
    f_equal. apply (replaceByKey_keys ParameterConfigItem.name).
  - now destruct endpoint.
  - intros params q Hafter Hin Hname.
    destruct (EndpointConfig.parameter_configurations endpoint) as [ps|];
      simpl in Hafter; [|discriminate].
    injection Hafter as <-.
    exact (replaceByKey_same ParameterConfigItem.name updatedParam ps q Hin Hname).
Qed.

(** X16: when the parameters of the endpoint have pairwise different
    names, a change of the parameter at position [i] replaces that
    position and no other. *)
Lemma handleParameterChange_replaces_one (updatedParam p : ParameterConfigItem.t)
    (endpoint : EndpointConfig.t) (params : list ParameterConfigItem.t) (i : nat) :
  EndpointConfig.parameter_configurations endpoint = Some params ->
  NoDup (map ParameterConfigItem.name params) ->
  params !! i = Some p ->
  ParameterConfigItem.name updatedParam = ParameterConfigItem.name p ->
  handleParameterChange updatedParam endpoint
  = withParameters (Some (<[i := updatedParam]> params)) endpoint.
Proof.
  intros Hps Hnd Hi Hname. unfold handleParameterChange. rewrite Hps. simpl.
  do 2 f_equal.
  exact (replaceByKey_insert ParameterConfigItem.name updatedParam params Hnd i p Hi Hname).
Qed.

Lemma handleParameterChange_sample :
  handleParameterChange (setUserRequired false limitParameter) endpointWithDescription
  = withParameters
      (Some [userIdParameter; setUserRequired false limitParameter])
      endpointWithDescription.
Proof.
  apply (handleParameterChange_replaces_one (setUserRequired false limitParameter)
           limitParameter endpointWithDescription
           [userIdParameter; limitParameter] 1).
  - reflexivity.
  - apply NoDup_ListNoDup. repeat constructor; simpl; intuition discriminate.
  - reflexivity.
  - reflexivity.
Defined.

(** X17: the two text inputs of the card store [null] for an empty text,
    never an empty string.  So after the tool-name input is cleared the
    card announces the default name again, and after any other text it
    shows that text; and a selected endpoint shows the missing-description
    warning exactly when the description typed last is empty, and the
    Configured badge exactly when it is not. *)
Lemma card_inputs_store_null_for_empty (value : string) (endpoint : EndpointConfig.t) :
  EndpointConfig.mcp_tool_name (handleToolNameInput value endpoint) <> Some ""
  /\ EndpointConfig.mcp_description (handleDescriptionInput value endpoint) <> Some ""
  /\ shownToolName (handleToolNameInput value endpoint)
     = (if String.eqb value "" then defaultToolName endpoint else value)
  /\ descriptionMissing (handleDescriptionInput value endpoint)
     = EndpointConfig.is_selected endpoint && String.eqb value ""
  /\ isConfigured (handleDescriptionInput value endpoint)
     = EndpointConfig.is_selected endpoint && negb (String.eqb value "").
Proof.
  unfold handleToolNameInput, handleDescriptionInput, shownToolName,
    descriptionMissing, isConfigured, defaultToolName, or_undefined,
    truthy_opt, truthy.
  simpl.
  destruct (String.eqb_spec value "") as [->|Hne]; simpl.
  - repeat split; try discriminate.
  - apply String.eqb_neq in Hne as Hneb. rewrite Hneb. simpl.
    repeat split; try congruence.
Qed.

Section EndpointSelectionPageEdits.

Context {Backend : Type}.
Variable postBatchUpdate :
  Backend -> list EndpointConfigBatchUpdate.t ->
  Backend * (ApiError + list EndpointConfigBatchUpdate.t).

Lemma descriptionMissing_withParameters (ps : option (list ParameterConfigItem.t))
    (c : EndpointConfig.t) :
  descriptionMissing (withParameters ps c) = descriptionMissing c.
Proof. reflexivity. Qed.

Lemma filter_descriptionMissing_withParameters
    (f : EndpointConfig.t -> option (list ParameterConfigItem.t))
    (l : list EndpointConfig.t) :
  List.filter descriptionMissing (map (fun c => withParameters (f c) c) l)
  = map (fun c => withParameters (f c) c) (List.filter descriptionMissing l).
Proof.
  induction l as [|c l IH]; simpl; [reflexivity|].
  rewrite descriptionMissing_withParameters.
  destruct (descriptionMissing c); simpl; now rewrite IH.
Qed.

(** X18: the save never looks into the parameters.  Whatever is put in
    place of the parameter lists of the endpoints (a parameter without a
    description, say, although the parameter card marks that field as
    required), the save is stopped or let through as before, and when it
    is stopped the alert is word for word the same. *)
Lemma handleSave_ignores_parameters (b : Backend) (specId : option string)
    (configs : list EndpointConfig.t) (changed : bool)
    (f : EndpointConfig.t -> option (list ParameterConfigItem.t)) :
  let edited := map (fun c => withParameters (f c) c) configs in
  reachesBackend (snd (handleSave postBatchUpdate b specId edited changed))
  = reachesBackend (snd (handleSave postBatchUpdate b specId configs changed))
  /\ forall text,
       snd (handleSave postBatchUpdate b specId edited changed) = [Alert text]
       <-> snd (handleSave postBatchUpdate b specId configs changed) = [Alert text].
Proof.
  unfold handleSave.
  destruct (negb (truthy_opt specId)); [simpl; split; [reflexivity | tauto]|].
  rewrite filter_descriptionMissing_withParameters, length_map.
  assert (Htext :
    missingDescriptionAlert
      (map (fun c => withParameters (f c) c) (List.filter descriptionMissing configs))
    = missingDescriptionAlert (List.filter descriptionMissing configs)).
  { unfold missingDescriptionAlert. do 2 f_equal. rewrite map_map. reflexivity. }
  destruct (0 <? length (List.filter descriptionMissing configs))%nat.
  - cbn [snd]. rewrite Htext. split; [reflexivity | tauto].
  - destruct (postBatchUpdate b (map toBatchUpdate (map _ configs))) as [b1 [e1|r1]];
      destruct (postBatchUpdate b (map toBatchUpdate configs)) as [b2 [e2|r2]];
      simpl; (split; [reflexivity|]); intros text; split; discriminate.
Qed.

(** X19: a change coming from a card replaces the endpoints of that id in
    the local list: the ids stay as they were, in their order; an id the
    list does not hold changes nothing in it.  In every case the page
    then counts as changed, and while it does, configurations fetched
    again do not overwrite the local list.  Search text and method
    filter stay. *)
Lemma handleConfigChange_keeps_ids (updatedConfig : EndpointConfig.t)
    (st : SelectionState) (refetched : option (list EndpointConfig.t)) :
  let st' := handleConfigChange updatedConfig st in
  map EndpointConfig.id (localConfigs st') = map EndpointConfig.id (localConfigs st)
  /\ (~ In (EndpointConfig.id updatedConfig) (map EndpointConfig.id (localConfigs st)) ->
      localConfigs st' = localConfigs st)
  /\ hasChanges st' = true
  /\ syncConfigs refetched st' = st'
  /\ configSearchQuery st' = configSearchQuery st
  /\ filterMethod st' = filterMethod st.
Proof.
  unfold handleConfigChange. simpl. split; [|split; [|split; [|split]]].
  - apply (replaceByKey_keys EndpointConfig.id).
  - apply (replaceByKey_absent EndpointConfig.id).
  - reflexivity.
  - now destruct refetched.
  - split; reflexivity.
Qed.

(** X20: from the checkbox to the request.  With pairwise different
    endpoint ids and parameter names, ticking or unticking the mandatory
    box of the parameter at position [i] of the endpoint at position [j]
    and then saving posts (when no selected endpoint lacks its
    description) one update per endpoint, unchanged except at [j], where
    the parameter list differs at [i] only: there [user_required] is the
    state of the box, and [required] is still the flag of the OpenAPI
    document. *)
Lemma toggled_flag_is_saved (b : Backend) (specId : string)
    (st : SelectionState) (j i : nat) (endpoint : EndpointConfig.t)
    (params : list ParameterConfigItem.t) (p : ParameterConfigItem.t)
    (checked : bool) :
  truthy specId = true ->
  NoDup (map EndpointConfig.id (localConfigs st)) ->
  localConfigs st !! j = Some endpoint ->
  EndpointConfig.parameter_configurations endpoint = Some params ->
  NoDup (map ParameterConfigItem.name params) ->
  params !! i = Some p ->
  forallb (fun c => negb (descriptionMissing c)) (localConfigs st) = true ->
  let st' :=
    handleConfigChange
      (handleParameterChange (setUserRequired checked p) endpoint) st in
  exists rest,
    snd (handleSave postBatchUpdate b (Some specId) (localConfigs st') (hasChanges st'))
    = PostBatchUpdate specId
        (<[j := EndpointConfigBatchUpdate.mk
                  (EndpointConfig.id endpoint)
                  (EndpointConfig.is_selected endpoint)
                  (EndpointConfig.mcp_tool_name endpoint)
                  (EndpointConfig.mcp_description endpoint)
                  (Some (<[i := setUserRequired checked p]> params))]>
           (map toBatchUpdate (localConfigs st)))
      :: rest
  /\ ParameterConfigItem.user_required (setUserRequired checked p) = checked
  /\ ParameterConfigItem.required (setUserRequired checked p)
     = ParameterConfigItem.required p.
Proof.
  intros Hspec Hids Hj Hps Hnames Hi Hall st'.
  assert (Hedit :
    handleParameterChange (setUserRequired checked p) endpoint
    = withParameters (Some (<[i := setUserRequired checked p]> params)) endpoint).
  { unfold handleParameterChange. rewrite Hps. simpl. do 2 f_equal.
    exact (replaceByKey_insert ParameterConfigItem.name
             (setUserRequired checked p) params Hnames i p Hi eq_refl). }
  assert (Hlocal :
    localConfigs st'
    = <[j := withParameters (Some (<[i := setUserRequired checked p]> params)) endpoint]>
        (localConfigs st)).
  { subst st'. unfold handleConfigChange. simpl. rewrite Hedit.
    exact (replaceByKey_insert EndpointConfig.id
             (withParameters (Some (<[i := setUserRequired checked p]> params)) endpoint)
             (localConfigs st) Hids j endpoint Hj eq_refl). }
  remember (localConfigs st') as configs' eqn:Hconfigs'.
  assert (Hnone : List.filter descriptionMissing configs' = []).
  { rewrite Hlocal.
    assert (Hall' : Forall (fun c => descriptionMissing c = false) (localConfigs st)).
    { apply Forall_forall. intros c Hc. apply list_elem_of_In in Hc.
      rewrite forallb_forall in Hall. specialize (Hall c Hc).
      now apply negb_true_iff in Hall. }
    assert (Hall'' : Forall (fun c => descriptionMissing c = false)
                       (<[j := withParameters
                                 (Some (<[i := setUserRequired checked p]> params))
                                 endpoint]> (localConfigs st))).
    { apply Forall_insert; [exact Hall'|].
      rewrite descriptionMissing_withParameters.
      rewrite Forall_forall in Hall'. apply Hall'.
      now apply list_elem_of_lookup_2 in Hj. }
    clear -Hall''. induction Hall'' as [|c l Hc _ IH]; simpl; [reflexivity|].
    now rewrite Hc. }
  unfold handleSave. simpl truthy_opt. rewrite Hspec. simpl negb.
  rewrite Hnone. simpl.
  assert (Hupdates :
    map toBatchUpdate configs'
    = <[j := EndpointConfigBatchUpdate.mk
               (EndpointConfig.id endpoint)
               (EndpointConfig.is_selected endpoint)
               (EndpointConfig.mcp_tool_name endpoint)
               (EndpointConfig.mcp_description endpoint)
               (Some (<[i := setUserRequired checked p]> params))]>
        (map toBatchUpdate (localConfigs st))).
  { rewrite Hlocal. now rewrite list_fmap_insert. }
  rewrite Hupdates.
  destruct (postBatchUpdate b _) as [b1 [err|ok]]; eexists; repeat split.
Qed.

End EndpointSelectionPageEdits.

Lemma toggled_flag_sample :
  exists rest,
    snd (handleSave acceptsUpdates tt (Some "spec-1")
           (localConfigs
              (handleConfigChange
                 (handleParameterChange (setUserRequired false limitParameter)
                    endpointWithDescription)
                 (mkSelectionState [endpointWithDescription] "" None false)))
           true)
    = PostBatchUpdate "spec-1"
        [EndpointConfigBatchUpdate.mk "ep-1" true None (Some "Retrieve a user by id")
           (Some [userIdParameter; setUserRequired false limitParameter])]
      :: rest
  /\ ParameterConfigItem.user_required (setUserRequired false limitParameter) = false
  /\ ParameterConfigItem.required (setUserRequired false limitParameter) = false.
Proof.
  apply (toggled_flag_is_saved acceptsUpdates tt "spec-1"
           (mkSelectionState [endpointWithDescription] "" None false)
           0 1 endpointWithDescription [userIdParameter; limitParameter]
           limitParameter false).
  - reflexivity.
  - apply NoDup_ListNoDup. repeat constructor; simpl; intuition discriminate.
  - reflexivity.
  - reflexivity.
  - apply NoDup_ListNoDup. repeat constructor; simpl; intuition discriminate.
  - reflexivity.
  - reflexivity.
Defined.

Lemma includes_empty (s : string) : includes s "" = true.
Proof. destruct s; reflexivity. Qed.

Lemma filter_sublist_of {A : Type} (f : A -> bool) (l : list A) :
  sublist (List.filter f l) l.
Proof.
  induction l as [|x l IH]; simpl; [constructor|].
  destruct (f x); now constructor.
Qed.

(** X21: the list of the configuration page shows a sub-list of the
    endpoints, in their order.  With a method filter set, every endpoint
    shown has exactly that method (the comparison is case-sensitive);
    with no method filter and an empty search text, every endpoint is
    shown.  The counter in the header counts the selected endpoints the
    filter hides as well: it is never below the number of selected
    endpoints shown. *)
Lemma filteredConfigs_shows (st : SelectionState) :
  sublist (filteredConfigs st) (localConfigs st)
  /\ (length (List.filter EndpointConfig.is_selected (filteredConfigs st))
      <= selectedCount st)%nat
  /\ (forall m c,
        filterMethod st = Some m -> m <> "" ->
        In c (filteredConfigs st) -> EndpointConfig.http_method c = m)
  /\ (configSearchQuery st = "" ->
      truthy_opt (filterMethod st) = false ->
      filteredConfigs st = localConfigs st).
Proof.
  unfold filteredConfigs, selectedCount. split; [apply filter_sublist_of|].
  split; [|split].
  - induction (localConfigs st) as [|c l IH]; simpl; [lia|].
    destruct (matchesFilter _ _ c); simpl;
      destruct (EndpointConfig.is_selected c); simpl; lia.
  - intros m c Hm Hne Hin. apply filter_In in Hin as [_ Hc].
    unfold matchesFilter in Hc. rewrite Hm in Hc. simpl in Hc.
    apply andb_true_iff in Hc as [_ Hc].
    unfold truthy in Hc. apply String.eqb_neq in Hne. rewrite Hne in Hc. simpl in Hc.
    now apply String.eqb_eq in Hc.
  - intros Hq Hm. apply filter_all. intros c. unfold matchesFilter.
    rewrite Hq, Hm. simpl. now rewrite includes_empty.
Qed.

Lemma fromSet_spec (l : list string) :
  forall seen,
    NoDup (fromSet seen l)
    /\ forall x, x ∈ fromSet seen l <-> x ∈ l /\ x ∉ seen.
Proof.
  induction l as [|y l IH]; intros seen; simpl.
  - split; [constructor|]. intros x. split; [intros H; inversion H|].
    intros [H _]. inversion H.
  - destruct (bool_decide (y ∈ seen)) eqn:E.
    + apply bool_decide_eq_true in E. destruct (IH seen) as [Hnd Hin].
      split; [exact Hnd|]. intros x. rewrite Hin. split.
      * intros [Hx Hs]. split; [now right | exact Hs].
      * intros [Hx Hs]. split; [|exact Hs].
        apply elem_of_cons in Hx as [->|Hx]; [contradiction | exact Hx].
    + apply bool_decide_eq_false in E. destruct (IH (y :: seen)) as [Hnd Hin].
      split.
      * constructor; [|exact Hnd]. rewrite Hin. intros [_ Hy]. apply Hy. now left.
      * intros x. rewrite elem_of_cons, Hin. split.
        -- intros [->|[Hx Hs]]; [split; [now left | exact E]|].
           split; [now right|]. intros Hxs. apply Hs. now right.
        -- intros [Hx Hs]. apply elem_of_cons in Hx as [->|Hx]; [now left|].
           destruct (decide (x = y)) as [->|Hne]; [now left|].
           right. split; [exact Hx|]. intros Hxs.
           apply elem_of_cons in Hxs as [?|?]; contradiction.
Qed.

(** X22: the method buttons.  Every method of an endpoint has its
    button and every button is the method of an endpoint; no method has
    two buttons.  With an empty search text a click on a button never
    leads to the empty list. *)
Lemma methods_are_the_methods_in_use (st : SelectionState) :
  NoDup (methods st)
  /\ (forall m,
        m ∈ methods st
        <-> exists c, In c (localConfigs st) /\ EndpointConfig.http_method c = m)
  /\ Forall
       (fun m =>
          filteredConfigs (setFilterMethod (Some m) (setSearchQuery "" st)) <> [])
       (methods st).
Proof.
  unfold methods.
  destruct (fromSet_spec (map EndpointConfig.http_method (localConfigs st)) [])
    as [Hnd Hin].
  assert (Hiff : forall m,
    m ∈ fromSet [] (map EndpointConfig.http_method (localConfigs st))
    <-> exists c, In c (localConfigs st) /\ EndpointConfig.http_method c = m).
  { intros m. rewrite Hin. split.
    - intros [Hm _]. apply list_elem_of_In, in_map_iff in Hm as (c & <- & Hc).
      now exists c.
    - intros (c & Hc & <-). split; [|intros H; inversion H].
      apply list_elem_of_In. now apply in_map. }
  split; [exact Hnd|]. split; [exact Hiff|].
  apply Forall_forall. intros m Hm. apply Hiff in Hm as (c & Hc & Hmeth).
  unfold filteredConfigs, setFilterMethod, setSearchQuery. simpl.
  assert (Hmatch : matchesFilter "" (Some m) c = true).
  { unfold matchesFilter. simpl. rewrite includes_empty. simpl.
    unfold truthy. destruct (String.eqb_spec m ""); simpl; [reflexivity|].
    now apply String.eqb_eq. }
  intros Hnil.
  assert (Hin' : In c (List.filter (matchesFilter "" (Some m)) (localConfigs st)))
    by (apply filter_In; auto).
  rewrite Hnil in Hin'. destruct Hin'.
Qed.

(** ** A turn of the AI Sandbox, read as a whole *)

Section AITestingPageTurn.

Context {Backend : Type}.
Variable postTest :
  Backend -> string -> TestMessageRequest.t ->
  Backend * (ApiError + TestMessageResponse.t).
Variable postExecuteTool :
  Backend -> string -> ToolExecutionRequest.t ->
  Backend * (ApiError + ToolExecutionResponse.t).

Lemma lastHistory_app (log1 log2 : list Exchange) (before : list Json) :
  lastHistory (log1 ++ log2) before = lastHistory log2 (lastHistory log1 before).
Proof. unfold lastHistory. apply fold_left_app. Qed.

(** The loop, with everything the turn facts need. *)
Lemma executeTools_turn (st0 : PageState) (hist : list Json)
    (calls : list ToolCall) :
  forall (b : Backend) (st : PageState) b' st' log thrown,
    executeTools postExecuteTool st0 hist calls b st = (b', st', log, thrown) ->
    pageSettings st' = pageSettings st
    /\ inputMessage st' = inputMessage st
    /\ messages st' ++ match thrown with
                       | Some err => [errorMessage err]
                       | None => []
                       end
       = messages st ++ map messageOf log
    /\ conversationHistory st' = lastHistory log (conversationHistory st)
    /\ omap toolCallSent log = take (length log) calls
    /\ Forall (fun x =>
                 isExecuteExchange x = true
                 /\ historySent x = hist
                 /\ settingsSent x
                    = mkRequestSettings (primaryServerId st0) (provider st0)
                        (requestModel st0) (requestApiKey st0) (requestBaseUrl st0)
                        (selectedServerIds st0) (or_undefined (authorization st0)))
         log.
Proof.
  induction calls as [|c rest IH]; intros b st b' st' log thrown; simpl.
  - intros [= <- <- <- <-]. simpl. rewrite app_nil_r. repeat split; constructor.
  - destruct (postExecuteTool b (primaryServerId st0) (executeRequest st0 hist c))
      as [b1 [err|toolResult]] eqn:Hpost.
    + intros [= <- <- <- <-]. simpl. repeat split.
      repeat constructor.
    + destruct (executeTools postExecuteTool st0 hist rest b1 _)
        as [[[b2 st2] log2] thrown2] eqn:Hrest.
      intros [= <- <- <- <-].
      destruct (IH _ _ _ _ _ _ Hrest) as (Hset & Hin & Hmsg & Hhist & Hcalls & Hall).
      simpl in *. repeat split.
      * exact Hset.
      * exact Hin.
      * rewrite Hmsg. now rewrite <- app_assoc.
      * exact Hhist.
      * f_equal. exact Hcalls.
      * constructor; [repeat split | exact Hall].
Qed.

(** A turn leaves the selection and the provider settings alone. *)
Lemma handleSendMessage_settings_kept (b : Backend) (st : PageState) :
  pageSettings (snd (fst (handleSendMessage postTest postExecuteTool b st)))
  = pageSettings st.
Proof.
  unfold handleSendMessage.
  destruct (negb (truthy (trim (inputMessage st)))
            || (length (selectedServerIds st) =? 0)%nat); [reflexivity|].
  destruct (postTest b (primaryServerId st) (testRequest st))
    as [b1 [err|result]]; [reflexivity|].
  destruct (TestMessageResponse.requires_tool_execution result
            && (0 <? length (TestMessageResponse.tool_calls result))%nat);
    [|reflexivity].
  destruct (executeTools postExecuteTool st
              (TestMessageResponse.conversation_history result)
              (TestMessageResponse.tool_calls result) b1 _)
    as [[[b2 st3] log] thrown] eqn:Hloop.
  destruct (executeTools_turn _ _ _ _ _ _ _ _ _ Hloop) as (Hset & _).
  destruct thrown; simpl; exact Hset.
Qed.

(** X23: what a turn does to the page.  The selection and the provider
    settings are left alone.  When nothing is sent the page is as it
    was; otherwise the input is emptied and the transcript grows by the
    user's message followed by exactly one message per request, in the
    order of the requests: the answer, or the error message when the
    request was rejected.  No message is removed or rewritten. *)
Lemma handleSendMessage_transcript (b : Backend) (st : PageState) :
  let run := handleSendMessage postTest postExecuteTool b st in
  let st' := snd (fst run) in
  let log := snd run in
  pageSettings st' = pageSettings st
  /\ match log with
     | [] => st' = st
     | _ :: _ =>
         inputMessage st' = ""
         /\ messages st' = messages st ++ userMessage st :: map messageOf log
     end.
Proof.
  unfold handleSendMessage.
  destruct (negb (truthy (trim (inputMessage st)))
            || (length (selectedServerIds st) =? 0)%nat); [split; reflexivity|].
  destruct (postTest b (primaryServerId st) (testRequest st))
    as [b1 [err|result]].
  - simpl. repeat split. now rewrite <- app_assoc.
  - destruct (TestMessageResponse.requires_tool_execution result
              && (0 <? length (TestMessageResponse.tool_calls result))%nat).
    + destruct (executeTools postExecuteTool st
                  (TestMessageResponse.conversation_history result)
                  (TestMessageResponse.tool_calls result) b1 _)
        as [[[b2 st3] log] thrown] eqn:Hloop.
      destruct (executeTools_turn _ _ _ _ _ _ _ _ _ Hloop)
        as (Hset & Hin & Hmsg & _).
      destruct thrown as [err|]; simpl in *.
      * split; [exact Hset|]. split; [exact Hin|].
        rewrite Hmsg. now rewrite <- !app_assoc.
      * split; [exact Hset|]. split; [exact Hin|].
        rewrite app_nil_r in Hmsg. rewrite Hmsg. now rewrite <- !app_assoc.
    + simpl. repeat split. now rewrite <- !app_assoc.
Qed.

(** X24: every request of a turn, the first and each tool execution,
    goes to the first selected server and carries the same provider,
    model, selected servers and authorization.  The API key in it is the
    key field of the selected provider, or absent when that field is
    empty: never an empty key, never the key typed for the other
    provider.  A base URL is in it exactly when the provider is OpenAI. *)
Lemma every_request_carries_the_settings (b : Backend) (st : PageState) :
  Forall
    (fun x =>
       settingsSent x
       = mkRequestSettings (primaryServerId st) (provider st) (requestModel st)
           (if String.eqb (selectedProviderKey st) "" then None
            else Some (selectedProviderKey st))
           (match provider st with
            | openai => Some (openaiBaseUrl st)
            | anthropic => None
            end)
           (selectedServerIds st)
           (if String.eqb (authorization st) "" then None
            else Some (authorization st)))
    (snd (handleSendMessage postTest postExecuteTool b st)).
Proof.
  assert (Hsame :
    mkRequestSettings (primaryServerId st) (provider st) (requestModel st)
      (requestApiKey st) (requestBaseUrl st) (selectedServerIds st)
      (or_undefined (authorization st))
    = mkRequestSettings (primaryServerId st) (provider st) (requestModel st)
        (if String.eqb (selectedProviderKey st) "" then None
         else Some (selectedProviderKey st))
        (match provider st with
         | openai => Some (openaiBaseUrl st)
         | anthropic => None
         end)
        (selectedServerIds st)
        (if String.eqb (authorization st) "" then None
         else Some (authorization st))).
  { unfold requestApiKey, requestBaseUrl, selectedProviderKey, or_undefined, truthy.
    destruct (provider st);
      [destruct (String.eqb (anthropicApiKey st) "")
      |destruct (String.eqb (openaiApiKey st) "")];
      destruct (String.eqb (authorization st) ""); reflexivity. }
  unfold handleSendMessage.
  destruct (negb (truthy (trim (inputMessage st)))
            || (length (selectedServerIds st) =? 0)%nat); [constructor|].
  destruct (postTest b (primaryServerId st) (testRequest st))
    as [b1 [err|result]].
  - simpl. constructor; [exact Hsame | constructor].
  - destruct (TestMessageResponse.requires_tool_execution result
              && (0 <? length (TestMessageResponse.tool_calls result))%nat).
    + destruct (executeTools postExecuteTool st
                  (TestMessageResponse.conversation_history result)
                  (TestMessageResponse.tool_calls result) b1 _)
        as [[[b2 st3] log] thrown] eqn:Hloop.
      destruct (executeTools_turn _ _ _ _ _ _ _ _ _ Hloop)
        as (_ & _ & _ & _ & _ & Hall).
      rewrite Hsame in Hall.
      destruct thrown; simpl;
        (constructor;
         [exact Hsame
         |eapply Forall_impl; [exact Hall|]; intros x (_ & _ & Hx); exact Hx]).
    + simpl. constructor; [exact Hsame | constructor].
Qed.

(** X25: the history in the requests of a turn.  The first request
    carries the history of the page.  Every request after it is a tool
    execution; these are for the tool calls of the first answer, in
    their order from the first one on, and each of them carries the
    history that came with the first answer: the history an earlier
    execution of the same turn brought back is in none of them. *)
Lemma execute_requests_carry_first_history (b : Backend) (st : PageState) :
  match snd (handleSendMessage postTest postExecuteTool b st) with
  | [] => True
  | first :: rest =>
      isExecuteExchange first = false
      /\ historySent first = conversationHistory st
      /\ Forall (fun x => isExecuteExchange x = true) rest
      /\ match first with
         | TestExchange _ _ (inr result) =>
             omap toolCallSent rest
             = take (length rest) (TestMessageResponse.tool_calls result)
             /\ Forall
                  (fun x =>
                     historySent x = TestMessageResponse.conversation_history result)
                  rest
         | _ => rest = []
         end
  end.
Proof.
  unfold handleSendMessage.
  destruct (negb (truthy (trim (inputMessage st)))
            || (length (selectedServerIds st) =? 0)%nat); [exact I|].
  destruct (postTest b (primaryServerId st) (testRequest st))
    as [b1 [err|result]].
  - simpl. repeat split. constructor.
  - destruct (TestMessageResponse.requires_tool_execution result
              && (0 <? length (TestMessageResponse.tool_calls result))%nat).
    + destruct (executeTools postExecuteTool st
                  (TestMessageResponse.conversation_history result)
                  (TestMessageResponse.tool_calls result) b1 _)
        as [[[b2 st3] log] thrown] eqn:Hloop.
      destruct (executeTools_turn _ _ _ _ _ _ _ _ _ Hloop)
        as (_ & _ & _ & _ & Hcalls & Hall).
      assert (Hgoal :
        isExecuteExchange
          (TestExchange (primaryServerId st) (testRequest st) (inr result)) = false
        /\ historySent
             (TestExchange (primaryServerId st) (testRequest st) (inr result))
           = conversationHistory st
        /\ Forall (fun x => isExecuteExchange x = true) log
        /\ omap toolCallSent log
           = take (length log) (TestMessageResponse.tool_calls result)
        /\ Forall
             (fun x =>
                historySent x = TestMessageResponse.conversation_history result)
             log).
      { split; [reflexivity|]. split; [reflexivity|]. split; [|split].
        - eapply Forall_impl; [exact Hall|]. now intros x (Hx & _).
        - exact Hcalls.
        - eapply Forall_impl; [exact Hall|]. now intros x (_ & Hx & _). }
      destruct thrown; simpl; exact Hgoal.
    + simpl. repeat split; constructor.
Qed.

(** X26: the history the page keeps.  After a turn the page holds the
    history that the last answered request brought back, or its old
    history when no request was answered; rejected requests leave it
    alone.  That is the history the next message is sent with, whatever
    is typed; after Clear Chat the next message is sent with the empty
    history. *)
Lemma history_kept_is_last_received (b : Backend) (st : PageState)
    (next : string) :
  let run := handleSendMessage postTest postExecuteTool b st in
  let st' := snd (fst run) in
  conversationHistory st' = lastHistory (snd run) (conversationHistory st)
  /\ TestMessageRequest.conversation_history (testRequest (setInputMessage next st'))
     = lastHistory (snd run) (conversationHistory st)
  /\ TestMessageRequest.conversation_history
       (testRequest (setInputMessage next (handleClearChat st')))
     = []
  /\ messages (handleClearChat st') = []
  /\ pageSettings (handleClearChat st') = pageSettings st.
Proof.
  pose proof (handleSendMessage_settings_kept b st) as Hset.
  assert (Hhist :
    conversationHistory (snd (fst (handleSendMessage postTest postExecuteTool b st)))
    = lastHistory (snd (handleSendMessage postTest postExecuteTool b st))
        (conversationHistory st)).
  { unfold handleSendMessage.
    destruct (negb (truthy (trim (inputMessage st)))
              || (length (selectedServerIds st) =? 0)%nat); [reflexivity|].
    destruct (postTest b (primaryServerId st) (testRequest st))
      as [b1 [err|result]]; [reflexivity|].
    destruct (TestMessageResponse.requires_tool_execution result
              && (0 <? length (TestMessageResponse.tool_calls result))%nat);
      [|reflexivity].
    destruct (executeTools postExecuteTool st
                (TestMessageResponse.conversation_history result)
                (TestMessageResponse.tool_calls result) b1 _)
      as [[[b2 st3] log] thrown] eqn:Hloop.
    destruct (executeTools_turn _ _ _ _ _ _ _ _ _ Hloop)
      as (_ & _ & _ & Hh & _).
    destruct thrown; simpl; exact Hh. }
  cbv zeta. split; [exact Hhist|]. split; [exact Hhist|].
  split; [reflexivity|]. split; [reflexivity|]. exact Hset.
Qed.

End AITestingPageTurn.

(** ** Query keys *)

(** X27: the keys named after a base-URL update are prefixes of the
    detail key and of the endpoints key of the updated specification and
    of the list key of its project, and of the corresponding key of no
    other specification or project.  The key named after a deletion is a
    prefix of every project's list key and of no detail or endpoints
    key. *)
Lemma updateBaseURL_keys (id project_id id' project_id' : string) :
  (liesUnder (updateBaseURLInvalidates id project_id) (swaggerSpecKeys.detail id')
   <-> id' = id)
  /\ (liesUnder (updateBaseURLInvalidates id project_id) (swaggerSpecKeys.endpoints id')
      <-> id' = id)
  /\ (liesUnder (updateBaseURLInvalidates id project_id)
        (swaggerSpecKeys.listByProject project_id')
      <-> project_id' = project_id)
  /\ liesUnder deleteSwaggerSpecInvalidates (swaggerSpecKeys.listByProject project_id')
  /\ ~ liesUnder deleteSwaggerSpecInvalidates (swaggerSpecKeys.detail id')
  /\ ~ liesUnder deleteSwaggerSpecInvalidates (swaggerSpecKeys.endpoints id').
Proof.
  unfold liesUnder, updateBaseURLInvalidates, deleteSwaggerSpecInvalidates.
  repeat split.
  - intros (k & [<-|[<-|[]]] & [rest Hrest]); cbn in Hrest; congruence.
  - intros ->. exists (swaggerSpecKeys.detail id). split; [now left|]. now exists [].
  - intros (k & [<-|[<-|[]]] & [rest Hrest]); cbn in Hrest; congruence.
  - intros ->. exists (swaggerSpecKeys.detail id). split; [now left|].
    now exists ["endpoints"].
  - intros (k & [<-|[<-|[]]] & [rest Hrest]); cbn in Hrest; congruence.
  - intros ->. exists (swaggerSpecKeys.listByProject project_id).
    split; [right; now left|]. now exists [].
  - exists swaggerSpecKeys.lists. split; [now left|]. now exists [project_id'].
  - intros (k & [<-|[]] & [rest Hrest]); cbn in Hrest; congruence.
  - intros (k & [<-|[]] & [rest Hrest]); cbn in Hrest; congruence.
Qed.

(** ** Unsaved changes and the selection order *)

Section EndpointSelectionPageSave.

Context {Backend : Type}.
Variable postBatchUpdate :
  Backend -> list EndpointConfigBatchUpdate.t ->
  Backend * (ApiError + list EndpointConfigBatchUpdate.t).

(** X28: unsaved changes stay unsaved until a save is accepted.  With
    changes pending, [handleSave] clears [hasChanges] exactly when the
    batch update was posted and accepted; a missing spec id, a missing
    description or a rejected request leave it set.  So the
    configurations fetched next replace the local list after an accepted
    save, and only then: a save that did not go through never costs the
    local edits. *)
Lemma hasChanges_cleared_only_by_accepted_save (b : Backend)
    (specId : option string) (st : SelectionState)
    (fetched : list EndpointConfig.t) :
  let run := handleSave postBatchUpdate b specId (localConfigs st) true in
  let st' :=
    mkSelectionState (localConfigs st) (configSearchQuery st) (filterMethod st)
      (snd (fst run)) in
  hasChanges st' = negb (savedCleanly (snd run))
  /\ (savedCleanly (snd run) = true
      <-> truthy_opt specId = true
          /\ List.filter descriptionMissing (localConfigs st) = []
          /\ exists accepted,
               snd (postBatchUpdate b (map toBatchUpdate (localConfigs st)))
               = inr accepted)
  /\ localConfigs (syncConfigs (Some fetched) st')
     = (if savedCleanly (snd run) then fetched else localConfigs st).
Proof.
  unfold handleSave.
  destruct (truthy_opt specId); simpl negb; cbv iota.
  2:{ simpl. split; [reflexivity|]. split; [|reflexivity].
      split; [discriminate | intros [H _]; discriminate]. }
  destruct (List.filter descriptionMissing (localConfigs st)) as [|c l] eqn:Hmiss.
  2:{ simpl. split; [reflexivity|]. split; [|reflexivity].
      split; [discriminate | intros (_ & H & _); discriminate]. }
  simpl.
  destruct (postBatchUpdate b (map toBatchUpdate (localConfigs st)))
    as [b1 [err|accepted]]; simpl.
  - split; [reflexivity|]. split; [|reflexivity].
    split; [discriminate | intros (_ & _ & [accepted H]); discriminate].
  - split; [reflexivity|]. split; [|reflexivity].
    split; [intros _; repeat split; now exists accepted | reflexivity].
Qed.

End EndpointSelectionPageSave.

Lemma filter_other_id (serverId : string) (l : list string) :
  serverId ∉ l -> filter (fun i => i ≠ serverId) l = l.
Proof.
  induction l as [|x l IH]; intros Hnot; [reflexivity|].
  rewrite filter_cons_True.
  - f_equal. apply IH. intros Hin. apply Hnot. now right.
  - intros ->. apply Hnot. now left.
Qed.

(** X29: clicking a server twice.  An id that was not selected is
    selected and deselected again, and the selection is as before.  An
    id that was selected is deselected (every occurrence) and then put at
    the end: the same servers are selected, but the order, and with it
    the first id, which is the server the requests go to, may have
    changed. *)
Lemma handleToggleServer_twice (serverId : string) (prev : list string) :
  handleToggleServer serverId (handleToggleServer serverId prev)
  = (if bool_decide (serverId ∈ prev)
     then filter (fun i => i ≠ serverId) prev ++ [serverId]
     else prev)
  /\ (forall i,
        i ∈ handleToggleServer serverId (handleToggleServer serverId prev)
        <-> i ∈ prev)
  /\ (serverId ∈ handleToggleServer serverId prev <-> serverId ∉ prev).
Proof.
  assert (Hgone : serverId ∉ filter (fun i => i ≠ serverId) prev).
  { intros Hin. apply list_elem_of_filter in Hin as [Hne _]. now apply Hne. }
  assert (Htwice :
    handleToggleServer serverId (handleToggleServer serverId prev)
    = (if bool_decide (serverId ∈ prev)
       then filter (fun i => i ≠ serverId) prev ++ [serverId]
       else prev)).
  { unfold handleToggleServer.
    destruct (bool_decide (serverId ∈ prev)) eqn:E.
    - rewrite bool_decide_eq_false_2 by exact Hgone. reflexivity.
    - apply bool_decide_eq_false in E.
      rewrite bool_decide_eq_true_2 by (apply elem_of_app; right; now left).
      rewrite filter_app, (filter_other_id serverId prev E).
      rewrite filter_cons_False by (intros H; now apply H).
      rewrite filter_nil. apply app_nil_r. }
  split; [exact Htwice|]. split.
  - intros i. rewrite Htwice.
    destruct (bool_decide (serverId ∈ prev)) eqn:E; [|reflexivity].
    apply bool_decide_eq_true in E.
    rewrite elem_of_app, list_elem_of_filter, list_elem_of_singleton. split.
    + intros [[_ Hi]| ->]; [exact Hi | exact E].
    + intros Hi. destruct (decide (i = serverId)) as [->|Hne]; [now right|].
      left. now split.
  - unfold handleToggleServer.
    destruct (bool_decide (serverId ∈ prev)) eqn:E.
    + apply bool_decide_eq_true in E. split; [intros H; now apply Hgone in H|].
      intros Hnot. contradiction.
    + apply bool_decide_eq_false in E. split; [intros _; exact E|].
      intros _. apply elem_of_app. right. now left.
Qed.

(** ** The total the AI Sandbox shows *)

Lemma selectedServers_ext {Value : Type} (allServers : list (ServerInfo Value))
    (ids ids' : list string) :
  (forall s, s ∈ allServers -> si_id s ∈ ids <-> si_id s ∈ ids') ->
  selectedServers allServers ids = selectedServers allServers ids'.
Proof.
  unfold selectedServers. induction allServers as [|s l IH]; intros Hsame;
    [reflexivity|].
  assert (Hl : filter (fun s => si_id s ∈ ids) l = filter (fun s => si_id s ∈ ids') l).
  { apply IH. intros x Hx. apply Hsame. now right. }
  destruct (decide (si_id s ∈ ids)) as [Hin|Hnot].
  - rewrite !filter_cons_True; [now rewrite Hl | | exact Hin].
    apply (Hsame s); [now left | exact Hin].
  - rewrite !filter_cons_False; [exact Hl | | exact Hnot].
    intros Hin'. apply Hnot. apply (Hsame s); [now left | exact Hin'].
Qed.

Lemma handleToggleServer_twice_elem (serverId : string) (prev : list string)
    (i : string) :
  i ∈ handleToggleServer serverId (handleToggleServer serverId prev) <-> i ∈ prev.
Proof.
  unfold handleToggleServer.
  destruct (bool_decide (serverId ∈ prev)) eqn:E.
  - apply bool_decide_eq_true in E.
    rewrite bool_decide_eq_false_2.
    + rewrite elem_of_app, list_elem_of_filter, list_elem_of_singleton. split.
      * intros [[_ Hi]| ->]; [exact Hi | exact E].
      * intros Hi. destruct (decide (i = serverId)) as [->|Hne]; [now right|].
        left. now split.
    + intros Hin. apply list_elem_of_filter in Hin as [Hne _]. now apply Hne.
  - apply bool_decide_eq_false in E.
    rewrite bool_decide_eq_true_2 by (apply elem_of_app; right; now left).
    rewrite list_elem_of_filter, elem_of_app, list_elem_of_singleton. split.
    + intros [Hne [Hi| ->]]; [exact Hi | contradiction].
    + intros Hi. split; [intros ->; contradiction | now left].
Qed.

Section TotalToolCountFacts.

Context {Value : Type}.
Variable plus : Value -> Value -> Value.
Variable zero : Value.
Variable truthyValue : Value -> bool.

(** X2: the total shown next to the selection depends on which ids are
    selected and on nothing else of the selection: not on the order in
    which the servers were clicked, nor on an id being listed twice.  So
    clicking a server twice leaves the total as it was, although the
    order of the selection may have changed; and a selected id that no
    deployed server bears adds nothing.  This holds however [+] adds. *)
Lemma totalToolCount_depends_on_selected_set
    (allServers : list (ServerInfo Value)) :
  (forall ids ids',
     (forall i, i ∈ ids <-> i ∈ ids') ->
     totalToolCount plus zero truthyValue allServers ids
     = totalToolCount plus zero truthyValue allServers ids')
  /\ (forall serverId prev,
        totalToolCount plus zero truthyValue allServers
          (handleToggleServer serverId (handleToggleServer serverId prev))
        = totalToolCount plus zero truthyValue allServers prev)
  /\ (forall serverId ids,
        ~ In serverId (map si_id allServers) ->
        totalToolCount plus zero truthyValue allServers (serverId :: ids)
        = totalToolCount plus zero truthyValue allServers ids)
  /\ totalToolCount plus zero truthyValue allServers [] = zero.
Proof.
  unfold totalToolCount. split; [|split; [|split]].
  - intros ids ids' Hsame.
    rewrite (selectedServers_ext allServers ids ids'); [reflexivity|].
    intros s _. apply Hsame.
  - intros serverId prev.
    rewrite (selectedServers_ext allServers
               (handleToggleServer serverId (handleToggleServer serverId prev)) prev);
      [reflexivity|].
    intros s _. apply handleToggleServer_twice_elem.
  - intros serverId ids Hnot.
    rewrite (selectedServers_ext allServers (serverId :: ids) ids); [reflexivity|].
    intros s Hs. rewrite elem_of_cons. split; [|now right].
    intros [Heq|Hin]; [|exact Hin].
    exfalso. apply Hnot. rewrite <- Heq. apply in_map. now apply list_elem_of_In.
  - assert (Hnone : selectedServers allServers [] = []).
    { unfold selectedServers. induction allServers as [|s l IH]; [reflexivity|].
      rewrite filter_cons_False; [exact IH|]. intros Hin. inversion Hin. }
    now rewrite Hnone.
Qed.

End TotalToolCountFacts.
